(** * gosolarman: the Solarman V5 frame codec and its TCP transporter

    Shallow embedding of [crc.go], [types.go] and [solarman_client.go].
    Go bytes, [uint16] and [uint32] values are Rocq [Z]s; every place where
    Go truncates a value to its width is written out with [Z.land] or
    [mod].  A Go slice is a list of elements together with the spare part
    of its backing array (its capacity beyond its length), because
    re-slicing in Go is checked against the capacity, not the length.
    Computations that can panic at run time return an [outcome]. *)

From Stdlib Require Import ZArith List Lia Bool.
Import ListNotations.
Open Scope Z_scope.

(* ------------------------------------------------------------------ *)
(** ** Go run-time: outcomes and slices *)

(** Result of a Go computation returning [(T, error)] that may also panic. *)
Inductive outcome (E A : Type) : Type :=
| Ok (a : A)
| Err (e : E)
| Panic.
Arguments Ok {E A} a.
Arguments Err {E A} e.
Arguments Panic {E A}.

Definition obind {E A B} (m : outcome E A) (f : A -> outcome E B) : outcome E B :=
  match m with
  | Ok a => f a
  | Err e => Err e
  | Panic => Panic
  end.

Notation "x <- m ;; k" := (obind m (fun x => k))
  (at level 61, m at next level, right associativity).

(** A Go slice: its elements, and the rest of its backing array. *)
Record goslice := mkslice { elems : list Z; spare : list Z }.

Definition of_list (l : list Z) : goslice := mkslice l [].

Definition len (s : goslice) : nat := length (elems s).
Definition cap (s : goslice) : nat := length (elems s) + length (spare s).

(** [s[lo:hi]]: panics unless [0 <= lo <= hi <= cap(s)]. *)
Definition reslice {E} (s : goslice) (lo hi : nat) : outcome E goslice :=
  if Nat.leb lo hi && Nat.leb hi (cap s) then
    let backing := elems s ++ spare s in
    Ok (mkslice (firstn (hi - lo) (skipn lo backing)) (skipn hi backing))
  else Panic.

(** [s[i]]: panics unless [i < len(s)]. *)
Definition index {E} (s : goslice) (i : nat) : outcome E Z :=
  if Nat.ltb i (len s) then Ok (nth i (elems s) 0) else Panic.

(** [bytes.Equal] *)
Definition bytes_equal (a b : list Z) : bool :=
  if list_eq_dec Z.eq_dec a b then true else false.

(** [binary.LittleEndian.Uint16] / [binary.BigEndian.Uint16]: both start
    with the bounds-check hint [_ = b[1]]. *)
Definition le_uint16 {E} (b : goslice) : outcome E Z :=
  _ <- index b 1 ;;
  b0 <- index b 0 ;; b1 <- index b 1 ;;
  Ok (Z.lor b0 (Z.shiftl b1 8)).

Definition be_uint16 {E} (b : goslice) : outcome E Z :=
  _ <- index b 1 ;;
  b1 <- index b 1 ;; b0 <- index b 0 ;;
  Ok (Z.lor b1 (Z.shiftl b0 8)).

(** [binary.LittleEndian.Uint32] *)
Definition le_uint32 {E} (b : goslice) : outcome E Z :=
  _ <- index b 3 ;;
  b0 <- index b 0 ;; b1 <- index b 1 ;; b2 <- index b 2 ;; b3 <- index b 3 ;;
  Ok (Z.lor b0 (Z.lor (Z.shiftl b1 8) (Z.lor (Z.shiftl b2 16) (Z.shiftl b3 24)))).

(** [uint16ToBytes(i, binary.LittleEndian)] and [uint32ToBytes]. *)
Definition uint16ToBytes (i : Z) : list Z :=
  [Z.land i 255; Z.land (Z.shiftr i 8) 255].

Definition uint32ToBytes (i : Z) : list Z :=
  [Z.land i 255; Z.land (Z.shiftr i 8) 255;
   Z.land (Z.shiftr i 16) 255; Z.land (Z.shiftr i 24) 255].

(* ------------------------------------------------------------------ *)
(** ** Constants of [solarman_client.go] *)

Definition StartByte : Z := 0xA5.
Definition EndByte : Z := 0x15.
Definition ControlCodeRequest : Z := 0x4510.
Definition FrameType : Z := 0x02.
Definition SensorType : Z := 0x0000.
Definition TotalWorkingTime : Z := 0.
Definition PowerOnTime : Z := 0.
Definition OffsetTime : Z := 0.

(* ------------------------------------------------------------------ *)
(** ** Checksum and CRC *)

(** [CheckSum]: [checksum += v & 0xFF] on a Go [byte] wraps modulo 256. *)
Definition CheckSum (b : list Z) : Z :=
  let checksum := fold_left (fun cs v => (cs + Z.land v 0xFF) mod 256) b 0 in
  Z.land checksum 0xFF.

(** One of the eight inner iterations of [CRCFromBytes].  On a [uint16]
    register neither [>> 1] nor [^ 0xA001] can overflow, so no
    truncation is needed. *)
Definition crc_shift (crc : Z) : Z :=
  if Z.eqb (Z.land crc 0x01) 0 then Z.shiftr crc 1
  else Z.lxor (Z.shiftr crc 1) 0xA001.

(** Outer loop body: [crc = crc ^ uint16(v)] then [for range 8]. *)
Definition crc_byte (crc v : Z) : Z :=
  Nat.iter 8 crc_shift (Z.lxor crc v).

Definition CRCFromBytes (data : list Z) : list Z :=
  let crc := fold_left crc_byte data 0xFFFF in
  let lo := Z.land crc 255 in
  let hi := Z.land (Z.shiftr crc 8) 255 in
  [lo; hi].

(** [CRC(SlaveID, pdu)] of [crc.go]. *)
Record ProtocolDataUnit := mkPDU { FunctionCode : Z; Data : list Z }.

Definition CRC (SlaveID : Z) (pdu : ProtocolDataUnit) : list Z :=
  CRCFromBytes ([SlaveID; FunctionCode pdu] ++ Data pdu).

(* ------------------------------------------------------------------ *)
(** ** Errors of the codec

    One constructor per [fmt.Errorf] of [types.go] and of [Verify]; the
    arguments are the values printed in the message. *)

Inductive codec_err :=
(* Parse / ParseHeader *)
| ErrDataTooShort (got : Z)                  (* data too short *)
| ErrParseHeader (inner : codec_err)         (* failed to parse header: %w *)
| ErrStartByte (got : Z)                     (* invalid Start byte *)
| ErrChecksum (calculated provided : Z)      (* checksum mismatch *)
| ErrLength (expected got : Z)               (* invalid Length *)
| ErrRTUShort (got : Z)                      (* invalid RTU frame *)
| ErrCRC (expected got : list Z)             (* CRC mismatch *)
(* Verify *)
| ErrResponseTooShort (got : Z)              (* response too short *)
| ErrVerifyStart (got : Z)                   (* invalid start byte *)
| ErrVerifyChecksum (calculated provided : Z)(* checksum mismatch *)
| ErrSequence (request response : Z)         (* sequence number mismatch *)
| ErrControlCode (expected got : Z)          (* control code mismatch *)
| ErrLoggerSerial (request response : list Z)(* logger serial number mismatch *).

Abbreviation result := (outcome codec_err).

(* ------------------------------------------------------------------ *)
(** ** [types.go] *)

Record Header := mkHeader {
  Start : Z; Length : Z; ControlCode : Z; SequenceNumber : Z;
  LoggerSerialNumber : Z }.

Record ResponsePayload := mkPayload {
  PFrameType : Z; Status : Z; PTotalWorkingTime : Z; PPowerOnTime : Z;
  POffsetTime : Z; ModbusRTUFrame : ProtocolDataUnit }.

Record Response := mkResponse {
  RHeader : Header; RPayload : ResponsePayload; RChecksum : Z }.

(** [ParseHeader].  The [bytes.Reader] reads only fail past the end of the
    input, which the length test at the top rules out, so each read is
    an index into [data]. *)
Definition ParseHeader (data : goslice) : result Header :=
  if Nat.ltb (len data) 11 then Err (ErrDataTooShort (Z.of_nat (len data)))
  else
    start <- index data 0 ;;
    if negb (Z.eqb start StartByte) then Err (ErrStartByte start)
    else
      length <- (r <- reslice data 1 3 ;; le_uint16 r) ;;
      controlCode <- (r <- reslice data 3 5 ;; le_uint16 r) ;;
      sequenceNumber <- (r <- reslice data 5 7 ;; le_uint16 r) ;;
      loggerSerialNumber <- (r <- reslice data 7 11 ;; le_uint32 r) ;;
      Ok (mkHeader start length controlCode sequenceNumber loggerSerialNumber).

(** [parseRTUFrame] *)
Definition parseRTUFrame (data : goslice) : result ProtocolDataUnit :=
  fc <- index data 1 ;;
  d <- reslice data 2 (len data - 2) ;;
  Ok (mkPDU fc (elems d)).

(** [Parse] *)
Definition Parse (data : goslice) : result Response :=
  if Nat.ltb (len data) 11 then Err (ErrDataTooShort (Z.of_nat (len data)))
  else
    h11 <- reslice data 0 11 ;;
    header <- match ParseHeader h11 with
              | Ok h => Ok h
              | Err e => Err (ErrParseHeader e)
              | Panic => Panic
              end ;;
    body <- reslice data 1 (len data - 2) ;;
    let calculatedChecksum := CheckSum (elems body) in
    providedChecksum <- index data (len data - 2) ;;
    if negb (Z.eqb calculatedChecksum providedChecksum)
    then Err (ErrChecksum calculatedChecksum providedChecksum)
    else
      span <- reslice data 11 (len data - 2) ;;
      let responseLength := Z.of_nat (len span) mod 65536 in
      if negb (Z.eqb (Length header) responseLength)
      then Err (ErrLength (Length header) responseLength)
      else
        rtu <- reslice data 25 (len data - 2) ;;
        if Nat.ltb (len rtu) 5 then Err (ErrRTUShort (Z.of_nat (len rtu)))
        else
          providedCrc <- reslice rtu (len rtu - 2) (len rtu) ;;
          crcInput <- reslice rtu 0 (len rtu - 2) ;;
          let expectedCrc := CRCFromBytes (elems crcInput) in
          if negb (bytes_equal (elems providedCrc) expectedCrc)
          then Err (ErrCRC expectedCrc (elems providedCrc))
          else
            ft <- index data 11 ;;
            st <- index data 12 ;;
            twt <- (r <- reslice data 13 17 ;; le_uint32 r) ;;
            pot <- (r <- reslice data 17 21 ;; le_uint32 r) ;;
            ot <- (r <- reslice data 21 25 ;; le_uint32 r) ;;
            pdu <- (r <- reslice data 25 (len data - 2) ;; parseRTUFrame r) ;;
            cs <- index data (len data - 1) ;;
            Ok (mkResponse header (mkPayload ft st twt pot ot pdu) cs).

(* ------------------------------------------------------------------ *)
(** ** [solarmanPackager] *)

Record solarmanPackager := mkPackager {
  SlaveID : Z; LoggerSerial : Z; serial : Z }.

(** [getNextSerial]: [mb.serial++] on a [byte]. *)
Definition getNextSerial (mb : solarmanPackager) : Z * solarmanPackager :=
  let s := (serial mb + 1) mod 256 in
  (s, mkPackager (SlaveID mb) (LoggerSerial mb) s).

(** [Encode]; it never returns an error. *)
Definition Encode (mb : solarmanPackager) (pdu : ProtocolDataUnit)
  : list Z * solarmanPackager :=
  let payloadBytes :=
    [FrameType] ++ uint16ToBytes SensorType
    ++ uint32ToBytes TotalWorkingTime ++ uint32ToBytes PowerOnTime
    ++ uint32ToBytes OffsetTime
    ++ [SlaveID mb; FunctionCode pdu] ++ Data pdu ++ CRC (SlaveID mb) pdu in
  let '(seq, mb') := getNextSerial mb in
  let request :=
    [StartByte] ++ uint16ToBytes (Z.of_nat (length payloadBytes) mod 65536)
    ++ uint16ToBytes ControlCodeRequest ++ [seq; 0x00]
    ++ uint32ToBytes (LoggerSerial mb) ++ payloadBytes in
  (request ++ [CheckSum (tl request); EndByte], mb').

(** [Decode] *)
Definition Decode (mb : solarmanPackager) (adu : goslice)
  : result ProtocolDataUnit * solarmanPackager :=
  (match Parse adu with
   | Ok r => Ok (ModbusRTUFrame (RPayload r))
   | Err e => Err e
   | Panic => Panic
   end, mb).

(** [Verify] *)
Definition Verify (mb : solarmanPackager) (aduRequest aduResponse : goslice)
  : result unit * solarmanPackager :=
  (if Nat.ltb (len aduResponse) 11
   then Err (ErrResponseTooShort (Z.of_nat (len aduResponse)))
   else
     r0 <- index aduResponse 0 ;;
     if negb (Z.eqb r0 StartByte) then Err (ErrVerifyStart r0)
     else
       body <- reslice aduResponse 1 (len aduResponse - 2) ;;
       let calculatedChecksum := CheckSum (elems body) in
       providedChecksum <- index aduResponse (len aduResponse - 2) ;;
       if negb (Z.eqb calculatedChecksum providedChecksum)
       then Err (ErrVerifyChecksum calculatedChecksum providedChecksum)
       else
         requestSequence <- reslice aduRequest 5 6 ;;
         responseSequence <- reslice aduResponse 5 6 ;;
         if negb (bytes_equal (elems requestSequence) (elems responseSequence))
         then
           a <- be_uint16 requestSequence ;;
           b <- be_uint16 responseSequence ;;
           Err (ErrSequence a b)
         else
           requestControlCode <- (r <- reslice aduRequest 3 5 ;; le_uint16 r) ;;
           responseControlCode <- (r <- reslice aduResponse 3 5 ;; le_uint16 r) ;;
           let expectedResponseControlCode :=
             (requestControlCode - 0x3000) mod 65536 in
           if negb (Z.eqb responseControlCode expectedResponseControlCode)
           then Err (ErrControlCode expectedResponseControlCode responseControlCode)
           else
             requestLoggerSerial <- reslice aduRequest 7 11 ;;
             responseLoggerSerial <- reslice aduResponse 7 11 ;;
             if negb (bytes_equal (elems requestLoggerSerial)
                                  (elems responseLoggerSerial))
             then Err (ErrLoggerSerial (elems requestLoggerSerial)
                                       (elems responseLoggerSerial))
             else Ok tt,
   mb).

(* ------------------------------------------------------------------ *)
(** ** [solarmanTransporter]

    The network is an arbitrary oracle: the outcome of the [n]-th dial,
    [n]-th [conn.Write] and [n]-th [conn.Read] performed by the
    transporter.  The transporter records which connection it holds and
    how many calls of each kind it has made; every call appends an event
    to the trace of the exchange. *)

(** Go errors, as far as [errors.Is(err, syscall.EPIPE)] can tell them
    apart: [fmt.Errorf] with [%w] wraps its argument. *)
Inductive wrap_ctx := WConnect | WReconnect | WWrite | WRead.

Inductive goerr :=
| EPIPE                               (* syscall.EPIPE *)
| ESys (errno : Z)                    (* any other failure of the socket *)
| EShortWrite (got expected : Z)      (* error while sending data *)
| EWrapped (ctx : wrap_ctx) (inner : goerr).

Fixpoint is_epipe (e : goerr) : bool :=
  match e with
  | EPIPE => true
  | EWrapped _ inner => is_epipe inner
  | _ => false
  end.

(** [errors.Is(err, syscall.EPIPE)]; a nil error is not [EPIPE]. *)
Definition errors_is_EPIPE (err : option goerr) : bool :=
  match err with Some e => is_epipe e | None => false end.

Record network := mkNetwork {
  dial_result : nat -> option goerr;
  write_result : nat -> Z * option goerr;        (* (n, err) of conn.Write *)
  read_result : nat -> list Z * option goerr     (* bytes, err of conn.Read *)
}.

Record solarmanTransporter := mkTransporter {
  conn : option nat;            (* the index of the dial that opened it *)
  dials : nat; writes : nat; reads : nat }.

Inductive event :=
| EvDial (err : option goerr)
| EvClose
| EvWrite (request : list Z) (err : option goerr)
| EvRead (err : option goerr).

(** State-and-trace monad of the transporter's methods. *)
Definition io (A : Type) : Type :=
  solarmanTransporter -> A * solarmanTransporter * list event.

Definition io_ret {A} (a : A) : io A := fun st => (a, st, []).

Definition io_bind {A B} (m : io A) (k : A -> io B) : io B :=
  fun st => let '(a, st1, t1) := m st in
            let '(b, st2, t2) := k a st1 in (b, st2, t1 ++ t2).

Notation "x <-- m ;; k" := (io_bind m (fun x => k))
  (at level 61, m at next level, right associativity).

Section Transporter.

Variable net : network.

(** [connect]: dial only when there is no connection; the settling
    [time.Sleep] has no observable effect here. *)
Definition connect : io (option goerr) := fun mb =>
  match conn mb with
  | Some _ => (None, mb, [])
  | None =>
      let r := dial_result net (dials mb) in
      match r with
      | Some e => (Some e, mkTransporter None (S (dials mb)) (writes mb) (reads mb),
                   [EvDial r])
      | None => (None, mkTransporter (Some (dials mb)) (S (dials mb))
                         (writes mb) (reads mb), [EvDial r])
      end
  end.

(** [reconnect]: close and forget the current connection, then [connect].
    The error of [mb.conn.Close()] is discarded by the source. *)
Definition reconnect : io (option goerr) := fun mb =>
  match conn mb with
  | None => connect mb
  | Some _ =>
      let mb' := mkTransporter None (dials mb) (writes mb) (reads mb) in
      let '(r, mb'', t) := connect mb' in (r, mb'', EvClose :: t)
  end.

(** [write]: [Send] calls it only while [mb.conn] is set. *)
Definition write (request : list Z) : io (option goerr) := fun mb =>
  let '(n, err) := write_result net (writes mb) in
  let r := match err with
           | Some e => Some e
           | None =>
               if n <? Z.of_nat (length request)
               then Some (EShortWrite n (Z.of_nat (length request)))
               else None
           end in
  (r, mkTransporter (conn mb) (dials mb) (S (writes mb)) (reads mb),
   [EvWrite request r]).

(** [read]: one [conn.Read] into a 1024-byte buffer; [raw_response[0:n]]
    is returned together with the error, whatever it is. *)
Definition read : io (list Z * option goerr) := fun mb =>
  let '(bytes, err) := read_result net (reads mb) in
  ((firstn 1024 bytes, err),
   mkTransporter (conn mb) (dials mb) (writes mb) (S (reads mb)),
   [EvRead err]).

(** Write step of [Send]: the first [mb.write] and its one recovery on
    [EPIPE].  [Some e] is an error [Send] returns at once; [None] means
    [Send] goes on to read. *)
Definition send_write (aduRequest : list Z) : io (option goerr) :=
  err <-- write aduRequest ;;
  if errors_is_EPIPE err then
    e <-- reconnect ;;
    match e with
    | Some e => io_ret (Some (EWrapped WReconnect e))
    | None =>
      e <-- write aduRequest ;;
      match e with
      | Some e => io_ret (Some (EWrapped WWrite e))
      | None => io_ret None
      end
    end
  else io_ret None.

(** Read step of [Send]: [mb.read] and its one recovery on [EPIPE]. *)
Definition send_read (aduRequest : list Z) : io (list Z * option goerr) :=
  r <-- read ;;
  let '(aduResponse, err) := r in
  if errors_is_EPIPE err then
    e <-- reconnect ;;
    match e with
    | Some e => io_ret ([], Some (EWrapped WReconnect e))
    | None =>
      e <-- write aduRequest ;;
      match e with
      | Some e => io_ret ([], Some (EWrapped WWrite e))
      | None =>
        r <-- read ;;
        let '(aduResponse, err) := r in
        match err with
        | Some e => io_ret ([], Some (EWrapped WRead e))
        | None => io_ret (aduResponse, None)
        end
      end
    end
  else io_ret (aduResponse, err).

(** [Send] (the mutex is held for the whole call, so a call is one
    uninterrupted run of this function). *)
Definition Send (aduRequest : list Z) : io (list Z * option goerr) :=
  e <-- connect ;;
  match e with
  | Some e => io_ret ([], Some (EWrapped WConnect e))
  | None =>
    early <-- send_write aduRequest ;;
    match early with
    | Some e => io_ret ([], Some e)
    | None => send_read aduRequest
    end
  end.

(** [Close]: closes the connection if there is one and returns the error
    of [conn.Close()]; [mb.conn] is left as it is. *)
Definition Close (close_err : option goerr) : io (option goerr) := fun mb =>
  match conn mb with
  | Some _ => (close_err, mb, [EvClose])
  | None => (None, mb, [])
  end.

End Transporter.

(* ------------------------------------------------------------------ *)
(** ** Reference definitions and helpers for the statements *)

(** Sum of a byte sequence, without truncation. *)
Definition byte_sum (b : list Z) : Z := fold_right Z.add 0 b.

(** A Go [byte] value. *)
Definition is_byte (v : Z) : Prop := 0 <= v < 256.

(** The reflected CRC-16 of the specification, one input bit at a time,
    least significant bit first: the feedback bit is the register's low
    bit xor the input bit; the register is shifted right and, on feedback,
    xored with the polynomial 0xA001.  The register starts at 0xFFFF and
    the result is [low byte; high byte]. *)
Definition crc16_ref_bit (reg : Z) (bit : bool) : Z :=
  if xorb (Z.odd reg) bit then Z.lxor (Z.shiftr reg 1) 0xA001
  else Z.shiftr reg 1.

Definition crc16_ref_byte (reg v : Z) : Z :=
  fold_left (fun r i => crc16_ref_bit r (Z.testbit v (Z.of_nat i))) (seq 0 8) reg.

Definition crc16_ref (data : list Z) : list Z :=
  let reg := fold_left crc16_ref_byte data 0xFFFF in
  [reg mod 256; (reg / 256) mod 256].

(** [n] consecutive calls of [Encode] on one packager. *)
Fixpoint encode_all (mb : solarmanPackager) (pdus : list ProtocolDataUnit)
  : list (list Z) * solarmanPackager :=
  match pdus with
  | [] => ([], mb)
  | pdu :: rest =>
      let '(frame, mb1) := Encode mb pdu in
      let '(frames, mb2) := encode_all mb1 rest in
      (frame :: frames, mb2)
  end.

(** Frame-level readings used to state properties of [Parse] and
    [Verify] on a plain byte list [l]. *)
Definition outer_checksum_ok (l : list Z) : Prop :=
  CheckSum (firstn (length l - 3) (skipn 1 l)) = nth (length l - 2) l 0.

Definition declared_length (l : list Z) : Z :=
  Z.lor (nth 1 l 0) (Z.shiftl (nth 2 l 0) 8).


(** Header fields of a frame given as a byte list. *)
Definition seq_byte (l : list Z) : Z := nth 5 l 0.

Definition control_code (l : list Z) : Z :=
  Z.lor (nth 3 l 0) (Z.shiftl (nth 4 l 0) 8).

Definition serial_bytes (l : list Z) : list Z := firstn 4 (skipn 7 l).


(** Readings of a [Send] trace. *)
Definition is_write_ev (a : event) : bool :=
  match a with EvWrite _ _ => true | _ => false end.

Definition is_read_ev (a : event) : bool :=
  match a with EvRead _ => true | _ => false end.

Definition ev_error (a : event) : option goerr :=
  match a with
  | EvDial r | EvWrite _ r | EvRead r => r
  | EvClose => None
  end.

(** What may trigger a recovery: the first write, or the first read, of
    the exchange failing with [EPIPE]. *)
Definition recovery_trigger (before : list event) (a : event) : bool :=
  match a with
  | EvWrite _ (Some e) => negb (existsb is_write_ev before) && is_epipe e
  | EvRead (Some e) => negb (existsb is_read_ev before) && is_epipe e
  | _ => false
  end.

(** A dial, or a write or read that repeats an earlier one. *)
Definition retried_or_dial (before : list event) (a : event) : bool :=
  match a with
  | EvDial _ => true
  | EvWrite _ _ => existsb is_write_ev before
  | EvRead _ => existsb is_read_ev before
  | EvClose => false
  end.

(** All the ways of cutting a list around one of its elements. *)
Fixpoint splits {A} (l : list A) : list (list A * A * list A) :=
  match l with
  | [] => []
  | x :: xs => ([], x, xs) :: map (fun '(p, a, q) => (x :: p, a, q)) (splits xs)
  end.


(** Sample networks for the transporter statements: every dial succeeds
    and every read returns the two bytes [A5 15]; the first write fails
    as given and later writes send the whole three-byte request. *)
Definition first_write_fails (first : Z * option goerr) : network :=
  mkNetwork (fun _ => None)
            (fun i => if Nat.eqb i 0 then first else (3, None))
            (fun _ => ([0xA5; 0x15], None)).


(* ------------------------------------------------------------------ *)
(** ** Lemmas *)

Lemma land_255_mod (v : Z) : Z.land v 255 = v mod 256.
Proof. change 255 with (Z.ones 8). rewrite Z.land_ones by lia. reflexivity. Qed.

Lemma checksum_fold (b : list Z) (acc : Z) :
  0 <= acc < 256 ->
  fold_left (fun cs v => (cs + Z.land v 0xFF) mod 256) b acc
  = (acc + byte_sum b) mod 256.
Proof.
  revert acc; induction b as [|v b IH]; intros acc Hacc; simpl.
  - rewrite Z.add_0_r, Z.mod_small; lia.
  - rewrite IH by (apply Z.mod_pos_bound; lia).
    rewrite land_255_mod.
    rewrite Zplus_mod_idemp_l.
    replace (acc + v mod 256 + byte_sum b) with (acc + byte_sum b + v mod 256) by lia.
    rewrite Z.add_mod_idemp_r by lia.
    f_equal; lia.
Qed.

Lemma crc_shift_spec (reg : Z) :
  crc_shift reg = crc16_ref_bit reg false.
Proof.
  unfold crc_shift, crc16_ref_bit.
  change 1 with (Z.ones 1) at 1. rewrite Z.land_ones by lia.
  rewrite Zmod_odd, xorb_false_r.
  destruct (Z.odd reg); reflexivity.
Qed.

Lemma odd_lxor (a b : Z) : Z.odd (Z.lxor a b) = xorb (Z.odd a) (Z.odd b).
Proof. rewrite <- !Z.bit0_odd. apply Z.lxor_spec. Qed.

(** The code xors the whole byte in first and then shifts eight times;
    after [k] shifts its register is the bitwise register xored with the
    input bits not consumed yet. *)
Lemma crc_iter_invariant (reg v : Z) (k : nat) :
  0 <= v ->
  Nat.iter k crc_shift (Z.lxor reg v)
  = Z.lxor (fold_left (fun r i => crc16_ref_bit r (Z.testbit v (Z.of_nat i)))
                      (seq 0 k) reg)
           (Z.shiftr v (Z.of_nat k)).
Proof.
  intros Hv. induction k as [|k IH].
  - simpl. rewrite Z.shiftr_0_r. reflexivity.
  - rewrite Nat.iter_succ, IH, seq_S, fold_left_app. simpl.
    set (S := fold_left _ (seq 0 k) reg).
    rewrite crc_shift_spec. unfold crc16_ref_bit.
    rewrite odd_lxor, xorb_false_r.
    assert (Hb : Z.odd (Z.shiftr v (Z.of_nat k)) = Z.testbit v (Z.of_nat k)).
    { rewrite <- Z.bit0_odd, Z.shiftr_spec by lia. f_equal. }
    rewrite Hb.
    assert (Hs : Z.shiftr (Z.lxor S (Z.shiftr v (Z.of_nat k))) 1
                 = Z.lxor (Z.shiftr S 1) (Z.shiftr v (Z.of_nat (Datatypes.S k)))).
    { rewrite Z.shiftr_lxor, Z.shiftr_shiftr by lia. do 2 f_equal. lia. }
    rewrite Hs.
    destruct (xorb (Z.odd S) (Z.testbit v (Z.of_nat k))).
    + rewrite !Z.lxor_assoc. f_equal. apply Z.lxor_comm.
    + reflexivity.
Qed.

Lemma crc_byte_ref (reg v : Z) :
  is_byte v -> crc_byte reg v = crc16_ref_byte reg v.
Proof.
  intros Hv. unfold crc_byte, crc16_ref_byte, is_byte in *.
  rewrite crc_iter_invariant by lia.
  rewrite Z.shiftr_div_pow2 by lia.
  rewrite Z.div_small by (simpl; lia).
  apply Z.lxor_0_r.
Qed.

Lemma encode_seq_byte (mb : solarmanPackager) (pdu : ProtocolDataUnit) :
  nth_error (fst (Encode mb pdu)) 5 = Some ((serial mb + 1) mod 256)
  /\ snd (Encode mb pdu)
     = mkPackager (SlaveID mb) (LoggerSerial mb) ((serial mb + 1) mod 256).
Proof. split; reflexivity. Qed.

Lemma crc_fold_ref (data : list Z) (reg : Z) :
  Forall is_byte data ->
  fold_left crc_byte data reg = fold_left crc16_ref_byte data reg.
Proof.
  intros H; revert reg; induction H as [|v data Hv _ IH]; intros reg; simpl.
  - reflexivity.
  - rewrite crc_byte_ref by exact Hv. apply IH.
Qed.

Lemma encode_all_spec (pdus : list ProtocolDataUnit) :
  forall mb, is_byte (serial mb) ->
  (forall k frame, nth_error (fst (encode_all mb pdus)) k = Some frame ->
     nth_error frame 5 = Some ((serial mb + Z.of_nat (S k)) mod 256))
  /\ snd (encode_all mb pdus)
     = mkPackager (SlaveID mb) (LoggerSerial mb)
                  ((serial mb + Z.of_nat (length pdus)) mod 256).
Proof.
  induction pdus as [|pdu rest IH]; intros mb Hmb.
  - split.
    + intros [|k] frame H; discriminate.
    + destruct mb as [s l c]; unfold is_byte in Hmb; cbn in *.
      rewrite Z.add_0_r, Z.mod_small by lia. reflexivity.
  - cbn [encode_all].
    destruct (encode_seq_byte mb pdu) as [Hseq Hst].
    destruct (Encode mb pdu) as [frame mb1] eqn:Henc. cbn [fst snd] in Hseq, Hst.
    subst mb1.
    destruct (IH (mkPackager (SlaveID mb) (LoggerSerial mb) ((serial mb + 1) mod 256)))
      as [IHf IHs].
    { unfold is_byte; cbn. apply Z.mod_pos_bound; lia. }
    destruct (encode_all _ rest) as [frames mb2] eqn:Hall.
    cbn [fst snd serial SlaveID LoggerSerial] in IHf, IHs |- *.
    split.
    + intros [|k] f H; cbn in H.
      * injection H as <-. rewrite Hseq. reflexivity.
      * rewrite (IHf k f H). f_equal.
        rewrite Zplus_mod_idemp_l. f_equal. lia.
    + rewrite IHs. f_equal. rewrite Zplus_mod_idemp_l. f_equal. cbn [length]. lia.
Qed.

Lemma reslice_ok {E} (s : goslice) (lo hi : nat) :
  (lo <= hi <= cap s)%nat ->
  @reslice E s lo hi
  = Ok (mkslice (firstn (hi - lo) (skipn lo (elems s ++ spare s)))
                (skipn hi (elems s ++ spare s))).
Proof.
  intros H. unfold reslice.
  replace (Nat.leb lo hi && Nat.leb hi (cap s)) with true; [reflexivity|].
  symmetry. apply andb_true_intro. split; apply Nat.leb_le; lia.
Qed.

Lemma reslice_of_list {E} (l : list Z) (lo hi : nat) :
  (lo <= hi <= length l)%nat ->
  @reslice E (of_list l) lo hi
  = Ok (mkslice (firstn (hi - lo) (skipn lo l)) (skipn hi l)).
Proof.
  intros H. rewrite reslice_ok by (unfold cap; cbn; lia).
  cbn. rewrite app_nil_r. reflexivity.
Qed.

Lemma reslice_inverted {E} (s : goslice) (lo hi : nat) :
  (hi < lo)%nat -> @reslice E s lo hi = Panic.
Proof.
  intros H. unfold reslice.
  replace (Nat.leb lo hi) with false by (symmetry; apply Nat.leb_gt; lia).
  reflexivity.
Qed.

Lemma reslice_beyond_cap {E} (s : goslice) (lo hi : nat) :
  (cap s < hi)%nat -> @reslice E s lo hi = Panic.
Proof.
  intros H. unfold reslice.
  replace (Nat.leb hi (cap s)) with false by (symmetry; apply Nat.leb_gt; lia).
  rewrite andb_false_r. reflexivity.
Qed.

Lemma index_ok {E} (s : goslice) (i : nat) :
  (i < len s)%nat -> @index E s i = Ok (nth i (elems s) 0).
Proof.
  intros H. unfold index. replace (Nat.ltb i (len s)) with true; [reflexivity|].
  symmetry. apply Nat.ltb_lt. exact H.
Qed.

(** [ParseHeader] on the first 11 bytes of a frame with the right start
    byte succeeds and reads the declared payload length. *)
Lemma ParseHeader_prefix (l : list Z) :
  (11 <= length l)%nat -> nth 0 l 0 = StartByte ->
  exists h, ParseHeader (mkslice (firstn 11 l) (skipn 11 l)) = Ok h
            /\ Length h = declared_length l.
Proof.
  intros Hl Hs.
  do 11 (destruct l as [|? l]; [cbn in Hl; lia|]).
  cbn in Hs. subst. eexists. split; reflexivity.
Qed.


Lemma len_mk (a b : list Z) : len (mkslice a b) = length a.
Proof. reflexivity. Qed.

Lemma reslice_within {E} (s : goslice) (lo hi : nat) :
  (lo <= hi <= len s)%nat ->
  @reslice E s lo hi
  = Ok (mkslice (firstn (hi - lo) (skipn lo (elems s)))
                (skipn hi (elems s ++ spare s))).
Proof.
  intros H. rewrite reslice_ok by (unfold cap, len in *; lia).
  unfold len in H.
  rewrite skipn_app, firstn_app, length_skipn.
  replace (hi - lo - (length (elems s) - lo))%nat with 0%nat by lia.
  rewrite firstn_O, app_nil_r. reflexivity.
Qed.

Lemma bytes_equal_spec (a b : list Z) : bytes_equal a b = true <-> a = b.
Proof.
  unfold bytes_equal. destruct (list_eq_dec Z.eq_dec a b); split; congruence.
Qed.

(** The response checks at the top of [Verify], once passed. *)
Ltac verify_response_checks resp Hlen Hs Hc :=
  unfold Verify; cbn [fst snd];
  replace (Nat.ltb (len resp) 11) with false
    by (symmetry; apply Nat.ltb_ge; exact Hlen);
  rewrite index_ok by lia; cbn [obind];
  rewrite Hs, Z.eqb_refl; cbn [negb];
  rewrite reslice_within by lia; cbn [obind elems];
  rewrite index_ok by lia; cbn [obind];
  unfold outer_checksum_ok in Hc;
  replace (len resp - 2 - 1)%nat with (length (elems resp) - 3)%nat
    by (unfold len; lia);
  unfold len in Hc |- *; rewrite Hc, Z.eqb_refl; cbn [negb].


(** Past the response checks, [Verify] compares sequence byte, control
    code and logger serial, in this order, on a request of 11 bytes or
    more. *)
Lemma Verify_correlation (mb : solarmanPackager) (req resp : goslice) :
  (11 <= len req)%nat ->
  (11 <= len resp)%nat -> nth 0 (elems resp) 0 = StartByte ->
  outer_checksum_ok (elems resp) ->
  fst (Verify mb req resp)
  = if negb (Z.eqb (seq_byte (elems req)) (seq_byte (elems resp))) then Panic
    else if negb (Z.eqb (control_code (elems resp))
                        ((control_code (elems req) - 0x3000) mod 65536))
    then Err (ErrControlCode ((control_code (elems req) - 0x3000) mod 65536)
                             (control_code (elems resp)))
    else if negb (bytes_equal (serial_bytes (elems req)) (serial_bytes (elems resp)))
    then Err (ErrLoggerSerial (serial_bytes (elems req)) (serial_bytes (elems resp)))
    else Ok tt.
Proof.
  intros Hreq Hlen Hs Hc.
  verify_response_checks resp Hlen Hs Hc.
  rewrite !(reslice_within req) by lia.
  rewrite !(reslice_within resp) by lia.
  destruct req as [rl rsp], resp as [sl ssp]. unfold len in *; cbn [elems spare] in *.
  clear Hs Hc.
  do 11 (destruct rl as [|? rl]; [cbn in Hreq; lia|]).
  do 11 (destruct sl as [|? sl]; [cbn in Hlen; lia|]).
  cbn - [bytes_equal Z.eqb Z.shiftl Z.lor Z.sub Z.modulo].
  replace (bytes_equal [z4] [z15]) with (Z.eqb z4 z15).
  - destruct (Z.eqb z4 z15); reflexivity.
  - destruct (Z.eqb_spec z4 z15) as [E|E]; symmetry.
    + apply bytes_equal_spec. congruence.
    + destruct (bytes_equal [z4] [z15]) eqn:B; [|reflexivity].
      apply bytes_equal_spec in B. congruence.
Qed.

Lemma firstn_exact (a b : list Z) (n : nat) : n = length a -> firstn n (a ++ b) = a.
Proof. intros ->. rewrite firstn_app, Nat.sub_diag, firstn_O, app_nil_r. apply firstn_all. Qed.

Lemma le_uint32_ok {E} (s : goslice) : len s = 4%nat -> exists v, @le_uint32 E s = Ok v.
Proof.
  destruct s as [l sp]. unfold len; cbn. intros H.
  do 4 (destruct l as [|? l]; [discriminate|]). destruct l; [|discriminate].
  eexists. reflexivity.
Qed.

Lemma Parse_frame_layout (h pre rtu : list Z) (cs e : Z) :
  length h = 11%nat -> length pre = 14%nat -> (5 <= length rtu)%nat ->
  nth 0 h 0 = StartByte ->
  declared_length h = Z.of_nat (14 + length rtu) mod 65536 ->
  cs = CheckSum (tl h ++ pre ++ rtu) ->
  match Parse (of_list (h ++ pre ++ rtu ++ [cs; e])) with
  | Ok r => skipn (length rtu - 2) rtu = CRCFromBytes (firstn (length rtu - 2) rtu)
            /\ ModbusRTUFrame (RPayload r)
               = mkPDU (nth 1 rtu 0) (firstn (length rtu - 4) (skipn 2 rtu))
  | Err err => skipn (length rtu - 2) rtu <> CRCFromBytes (firstn (length rtu - 2) rtu)
            /\ err = ErrCRC (CRCFromBytes (firstn (length rtu - 2) rtu))
                            (skipn (length rtu - 2) rtu)
  | Panic => False
  end.
Proof.
  intros Hh Hpre Hrtu Hs Hd Hc.
  set (data := h ++ pre ++ rtu ++ [cs; e]).
  assert (Hlen : length data = (27 + length rtu)%nat)
    by (subst data; rewrite !length_app; cbn; lia).
  assert (Hs' : nth 0 data 0 = StartByte)
    by (subst data; rewrite app_nth1 by lia; exact Hs).
  destruct (ParseHeader_prefix data ltac:(lia) Hs') as [hd [Hhd Hlenh]].
  unfold Parse. change (len (of_list data)) with (length data).
  replace (Nat.ltb (length data) 11) with false by (symmetry; apply Nat.ltb_ge; lia).
  rewrite reslice_of_list by lia. cbn [obind].
  change (11 - 0)%nat with 11%nat. change (skipn 0 data) with data.
  rewrite Hhd. cbn [obind].
  assert (Hdata : data = (h ++ pre ++ rtu) ++ [cs; e]) by (subst data; rewrite !app_assoc; reflexivity).
  assert (F1 : firstn (length data - 2 - 1) (skipn 1 data) = tl h ++ pre ++ rtu).
  { rewrite Hlen, Hdata. destruct h as [|b0 h']; [discriminate|].
    cbn [skipn tl app].
    apply firstn_exact. rewrite !length_app. cbn in Hh |- *. lia. }
  assert (F2 : nth (length data - 2) data 0 = cs).
  { rewrite Hlen, Hdata, app_nth2 by (rewrite !length_app; lia).
    rewrite !length_app.
    replace (27 + length rtu - 2 - (length h + (length pre + length rtu)))%nat
      with 0%nat by lia. reflexivity. }
  assert (F3 : skipn 25 data = rtu ++ [cs; e]).
  { subst data. rewrite app_assoc, skipn_app, length_app, skipn_all2 by (rewrite length_app; lia).
    replace (25 - (length h + length pre))%nat with 0%nat by lia. reflexivity. }
  assert (F4 : skipn (length data - 2) data = [cs; e]).
  { rewrite Hlen, Hdata, skipn_app, skipn_all2 by (rewrite !length_app; lia).
    rewrite !length_app.
    replace (27 + length rtu - 2 - (length h + (length pre + length rtu)))%nat
      with 0%nat by lia. reflexivity. }
  rewrite reslice_of_list by lia. cbn [obind elems]. rewrite F1.
  rewrite index_ok by (cbn; lia). cbn [obind elems of_list]. rewrite F2.
  rewrite Hc, Z.eqb_refl. cbn [negb].
  rewrite reslice_of_list by lia. cbn [obind]. rewrite len_mk, length_firstn, length_skipn.
  rewrite Hlenh. unfold declared_length at 1.
  rewrite Hdata, !app_nth1 by (rewrite ?length_app; lia). rewrite <- Hdata.
  fold (declared_length h). rewrite Hd.
  replace (Nat.min (length data - 2 - 11) (length data - 11)) with (14 + length rtu)%nat by lia.
  rewrite Z.eqb_refl. cbn [negb].
  rewrite reslice_of_list by lia. cbn [obind].
  rewrite F3, F4. replace (length data - 2 - 25)%nat with (length rtu) by lia.
  rewrite firstn_exact by reflexivity.
  rewrite len_mk.
  replace (Nat.ltb (length rtu) 5) with false by (symmetry; apply Nat.ltb_ge; lia).
  rewrite !reslice_within by (rewrite len_mk; lia). cbn [obind elems].
  replace (length rtu - (length rtu - 2))%nat with 2%nat by lia.
  rewrite (firstn_all2 (n := 2)) by (rewrite length_skipn; lia).
  rewrite Nat.sub_0_r. change (skipn 0 rtu) with rtu.
  destruct (bytes_equal (skipn (length rtu - 2) rtu) (CRCFromBytes (firstn (length rtu - 2) rtu))) eqn:B.
  2: { cbn [negb]. split; [|reflexivity]. intros E. apply bytes_equal_spec in E. congruence. }
  apply bytes_equal_spec in B. cbn [negb].
  rewrite !index_ok by (cbn; lia). cbn [obind].
  do 3 (rewrite reslice_of_list by lia; cbn [obind];
        match goal with
        | |- context [le_uint32 ?s] =>
            destruct (@le_uint32_ok codec_err s) as [? ->];
            [rewrite len_mk, length_firstn, length_skipn; lia|]
        end; cbn [obind]).
  unfold parseRTUFrame. rewrite index_ok by (rewrite len_mk; lia). cbn [obind elems].
  rewrite reslice_within by (rewrite len_mk; lia). cbn [obind elems].
  rewrite len_mk. replace (length rtu - 2 - 2)%nat with (length rtu - 4)%nat by lia.
  split; [exact B | reflexivity].
Qed.

Lemma u16_le_bytes (n : Z) :
  0 <= n < 65536 ->
  Z.lor (Z.land n 255) (Z.shiftl (Z.land (Z.shiftr n 8) 255) 8) = n.
Proof.
  intros Hn. apply Z.bits_inj'. intros i Hi.
  rewrite Z.lor_spec, Z.land_spec.
  change 255 with (Z.ones 8).
  destruct (Z.lt_ge_cases i 8) as [Hlt|Hge].
  - rewrite Z.ones_spec_low by lia. rewrite Z.shiftl_spec_low by lia.
    rewrite andb_true_r, orb_false_r. reflexivity.
  - rewrite Z.ones_spec_high by lia. rewrite andb_false_r, orb_false_l.
    rewrite Z.shiftl_spec by lia. rewrite Z.land_spec, Z.shiftr_spec by lia.
    replace (i - 8 + 8) with i by lia.
    destruct (Z.lt_ge_cases (i - 8) 8) as [Hlt'|Hge'].
    + rewrite Z.ones_spec_low by lia. apply andb_true_r.
    + rewrite Z.ones_spec_high by lia. rewrite andb_false_r.
      symmetry. apply Z.bits_above_log2; [lia|].
      destruct (Z.eq_dec n 0) as [->|Hnz]; [cbn; lia|].
      assert (Z.log2 n < 16) by (apply Z.log2_lt_pow2; lia). lia.
Qed.

Lemma Encode_frame_layout (mb : solarmanPackager) (pdu : ProtocolDataUnit) :
  let rtu := [0; SlaveID mb; FunctionCode pdu] ++ Data pdu ++ CRC (SlaveID mb) pdu in
  exists h pre,
    fst (Encode mb pdu) = h ++ pre ++ rtu ++ [CheckSum (tl h ++ pre ++ rtu); EndByte]
    /\ length h = 11%nat /\ length pre = 14%nat
    /\ nth 0 h 0 = StartByte
    /\ declared_length h = Z.of_nat (14 + length rtu) mod 65536.
Proof.
  intros rtu.
  set (n := Z.of_nat (19 + length (Data pdu)) mod 65536).
  exists ([StartByte] ++ uint16ToBytes n ++ uint16ToBytes ControlCodeRequest
          ++ [(serial mb + 1) mod 256; 0x00] ++ uint32ToBytes (LoggerSerial mb)).
  exists [FrameType; 0; 0; 0; 0; 0; 0; 0; 0; 0; 0; 0; 0; 0].
  assert (Hcrc : length (CRC (SlaveID mb) pdu) = 2%nat) by reflexivity.
  assert (Hrtu : length rtu = (5 + length (Data pdu))%nat)
    by (subst rtu; rewrite !length_app, Hcrc; cbn; lia).
  split; [|split; [reflexivity|split; [reflexivity|split; [reflexivity|]]]].
  - unfold Encode, getNextSerial. cbn [fst].
    replace (Z.of_nat (length _) mod 65536) with n.
    2: { subst n. f_equal. f_equal. rewrite !length_app, Hcrc. cbn. lia. }
    subst rtu. cbn [app tl]. reflexivity.
  - unfold declared_length. cbn [nth uint16ToBytes app].
    rewrite u16_le_bytes by (subst n; apply Z.mod_pos_bound; lia).
    subst n. rewrite Hrtu. reflexivity.
Qed.

Lemma skipn_exact (a b : list Z) (n : nat) : n = length a -> skipn n (a ++ b) = b.
Proof.
  intros ->. rewrite skipn_app, skipn_all, Nat.sub_diag. reflexivity.
Qed.

Lemma CRCFromBytes_length (data : list Z) : length (CRCFromBytes data) = 2%nat.
Proof. reflexivity. Qed.


Lemma splits_spec {A} (l pre post : list A) (a : A) :
  l = pre ++ a :: post -> In (pre, a, post) (splits l).
Proof.
  revert l; induction pre as [|x pre IH]; intros l ->; cbn.
  - left. reflexivity.
  - right. apply in_map_iff. exists (pre, a, post). split; [reflexivity|].
    apply IH. reflexivity.
Qed.


(** Case analysis of one run of [Send]: split on every answer of the
    network and on every test on it, as far as [H] depends on them. *)
Ltac send_cases H :=
  repeat (cbn in H;
    match type of H with
    | context [dial_result ?n ?i] => destruct (dial_result n i) eqn:?
    | context [write_result ?n ?i] =>
        destruct (write_result n i) as [? [?|]] eqn:?
    | context [read_result ?n ?i] =>
        destruct (read_result n i) as [? [?|]] eqn:?
    | context [is_epipe ?e] => destruct (is_epipe e) eqn:?
    | context [?a <? ?b] => destruct (a <? b) eqn:?
    end).

Ltac epipe_simpl :=
  repeat match goal with
  | H : is_epipe ?e = _ |- context [is_epipe ?e] => rewrite H
  | H : is_epipe ?e = _, H' : context [is_epipe ?e] |- _ =>
      tryif constr_eq H H' then fail else rewrite H in H'
  end.

(** The shape that follows a recovery trigger: close, dial, and on a
    successful dial the same write, then (for a read) one more read. *)
Ltac recovery_shape :=
  do 2 eexists; split; [reflexivity|];
  intros Hr;
  first [ discriminate
        | do 2 eexists; split; [reflexivity|];
          intros Hread Hr';
          first [ discriminate
                | cbn in Hread; discriminate
                | eexists; reflexivity ] ].

(** Turn [tr = pre ++ a :: post], for a known trace [tr], into one goal
    per position of [a]. *)
Ltac cut_trace H :=
  apply splits_spec in H; cbn in H;
  repeat match type of H with
         | _ \/ _ => destruct H as [H|H]
         | False => contradiction
         end;
  inversion H; subst; clear H.


Lemma crc_shift_even (x : Z) :
  Z.testbit x 0 = false -> crc_shift x = Z.shiftr x 1.
Proof.
  intros H. unfold crc_shift.
  change 1 with (Z.ones 1) at 1. rewrite Z.land_ones by lia.
  rewrite Zmod_odd, <- Z.bit0_odd, H. reflexivity.
Qed.

Lemma crc_iter_low_zero (k : nat) (x : Z) :
  (forall i, 0 <= i < Z.of_nat k -> Z.testbit x i = false) ->
  Nat.iter k crc_shift x = Z.shiftr x (Z.of_nat k).
Proof.
  induction k as [|k IH]; intros H.
  - reflexivity.
  - rewrite Nat.iter_succ, IH by (intros i Hi; apply H; lia).
    rewrite crc_shift_even.
    + rewrite Z.shiftr_shiftr by lia. f_equal. lia.
    + rewrite Z.shiftr_spec by lia. apply H. lia.
Qed.

Lemma crc_byte_own_low (r : Z) :
  0 <= r -> crc_byte r (Z.land r 255) = Z.shiftr r 8.
Proof.
  intros Hr. unfold crc_byte.
  rewrite crc_iter_low_zero.
  - cbn [Z.of_nat Pos.of_succ_nat Pos.succ].
    rewrite Z.shiftr_lxor.
    replace (Z.shiftr (Z.land r 255) 8) with 0.
    + apply Z.lxor_0_r.
    + apply Z.bits_inj'. intros i Hi.
      rewrite Z.bits_0, Z.shiftr_spec, Z.land_spec by lia.
      change 255 with (Z.ones 8). rewrite Z.ones_spec_high by lia.
      rewrite andb_false_r. reflexivity.
  - intros i Hi. rewrite Z.lxor_spec, Z.land_spec.
    change 255 with (Z.ones 8). rewrite Z.ones_spec_low by (cbn in Hi; lia).
    rewrite andb_true_r. apply xorb_nilpotent.
Qed.

Lemma lxor_u16 (a b : Z) :
  0 <= a < 65536 -> 0 <= b < 65536 -> 0 <= Z.lxor a b < 65536.
Proof.
  intros Ha Hb. split; [apply Z.lxor_nonneg; lia|].
  destruct (Z.eq_dec (Z.lxor a b) 0) as [->|Hn]; [lia|].
  assert (Hla : Z.log2 a < 16).
  { destruct (Z.eq_dec a 0) as [->|]; [cbn; lia|].
    apply Z.log2_lt_pow2; cbn; lia. }
  assert (Hlb : Z.log2 b < 16).
  { destruct (Z.eq_dec b 0) as [->|]; [cbn; lia|].
    apply Z.log2_lt_pow2; cbn; lia. }
  pose proof (Z.log2_lxor a b ltac:(lia) ltac:(lia)).
  assert (0 < Z.lxor a b) by (pose proof (Z.lxor_nonneg a b); lia).
  apply (Z.log2_lt_pow2 _ 16); lia.
Qed.

Lemma crc_shift_u16 (x : Z) : 0 <= x < 65536 -> 0 <= crc_shift x < 65536.
Proof.
  intros Hx. assert (0 <= Z.shiftr x 1 < 65536).
  { rewrite Z.shiftr_div_pow2 by lia. split; [apply Z.div_pos|apply Z.div_lt_upper_bound]; cbn; lia. }
  unfold crc_shift. destruct (Z.land x 1 =? 0); [assumption|].
  apply lxor_u16; lia.
Qed.

Lemma crc_byte_u16 (r v : Z) :
  0 <= r < 65536 -> is_byte v -> 0 <= crc_byte r v < 65536.
Proof.
  intros Hr Hv. unfold crc_byte, is_byte in *.
  assert (H : 0 <= Z.lxor r v < 65536) by (apply lxor_u16; lia).
  generalize (Z.lxor r v) H. clear. intros x Hx.
  generalize 8%nat as k; induction k as [|k IH]; [exact Hx|].
  rewrite Nat.iter_succ. apply crc_shift_u16, IH.
Qed.

Lemma crc_fold_u16 (data : list Z) (r : Z) :
  Forall is_byte data -> 0 <= r < 65536 -> 0 <= fold_left crc_byte data r < 65536.
Proof.
  intros H; revert r; induction H as [|v data Hv _ IH]; intros r Hr; cbn.
  - exact Hr.
  - apply IH, crc_byte_u16; assumption.
Qed.

Lemma CheckSum_byte_sum (l : list Z) : CheckSum l = byte_sum l mod 256.
Proof.
  unfold CheckSum. rewrite checksum_fold by lia.
  rewrite land_255_mod, Z.mod_mod by lia. reflexivity.
Qed.

Lemma byte_sum_app (a b : list Z) : byte_sum (a ++ b) = byte_sum a + byte_sum b.
Proof. induction a as [|x a IH]; cbn; [reflexivity|]. unfold byte_sum in *. cbn. lia. Qed.

Lemma Encode_frame_checksum (mb : solarmanPackager) (pdu : ProtocolDataUnit) :
  let frame := fst (Encode mb pdu) in
  length frame = (32 + length (Data pdu))%nat /\
  nth 0 frame 0 = StartByte /\
  nth (length frame - 1) frame 0 = EndByte /\
  outer_checksum_ok frame /\
  declared_length frame = Z.of_nat (19 + length (Data pdu)) mod 65536.
Proof.
  intros frame.
  destruct (Encode_frame_layout mb pdu) as (h & pre & Hf & Hh & Hpre & Hs & Hd).
  set (rtu := [0; SlaveID mb; FunctionCode pdu] ++ Data pdu ++ CRC (SlaveID mb) pdu) in *.
  assert (Hrtu : length rtu = (5 + length (Data pdu))%nat)
    by (subst rtu; unfold CRC; rewrite !length_app, CRCFromBytes_length;
        cbn [length]; lia).
  fold frame in Hf.
  assert (Hlen : length frame = (32 + length (Data pdu))%nat)
    by (rewrite Hf, !length_app, Hh, Hpre, Hrtu; cbn [length]; lia).
  assert (Hfa : frame = (h ++ pre ++ rtu) ++ [CheckSum (tl h ++ pre ++ rtu); EndByte])
    by (rewrite Hf, !app_assoc; reflexivity).
  split; [exact Hlen|]. split; [|split; [|split]].
  - rewrite Hf, app_nth1 by lia. exact Hs.
  - rewrite Hlen, Hfa, app_nth2 by (rewrite !length_app; lia).
    rewrite !length_app.
    replace (32 + length (Data pdu) - 1 - (length h + (length pre + length rtu)))%nat
      with 1%nat by lia. reflexivity.
  - unfold outer_checksum_ok. rewrite Hlen.
    replace (firstn (32 + length (Data pdu) - 3) (skipn 1 frame))
      with (tl h ++ pre ++ rtu).
    + rewrite Hfa, app_nth2 by (rewrite !length_app; lia).
      rewrite !length_app.
      replace (32 + length (Data pdu) - 2 - (length h + (length pre + length rtu)))%nat
        with 0%nat by lia. reflexivity.
    + rewrite Hfa. destruct h as [|b0 h']; [discriminate|].
      cbn [skipn tl app]. symmetry. apply firstn_exact.
      rewrite !length_app. cbn in Hh. lia.
  - unfold declared_length. rewrite Hf, !app_nth1 by lia. fold (declared_length h).
    rewrite Hd, Hrtu.
    replace (14 + (5 + length (Data pdu)))%nat with (19 + length (Data pdu))%nat
      by lia.
    reflexivity.
Qed.

(** Little-endian byte fields. *)
Lemma testbit_255 (j : Z) : Z.testbit 255 j = (0 <=? j) && (j <? 8).
Proof.
  change 255 with (Z.ones 8).
  destruct (Z.ltb_spec j 0) as [Hn|Hn].
  - rewrite Z.testbit_neg_r by lia.
    replace (0 <=? j) with false by (symmetry; apply Z.leb_gt; lia). reflexivity.
  - replace (0 <=? j) with true by (symmetry; apply Z.leb_le; lia).
    cbn [andb]. change 255 with (Z.ones 8).
    destruct (Z.ltb_spec j 8).
    + apply Z.ones_spec_low. lia.
    + apply Z.ones_spec_high. lia.
Qed.

Lemma testbit_byte_field (n k j : Z) :
  0 <= k -> Z.testbit (Z.land (Z.shiftr n k) 255) j
            = (0 <=? j) && (j <? 8) && Z.testbit n (j + k).
Proof.
  intros Hk. rewrite Z.land_spec, testbit_255.
  destruct (Z.ltb_spec j 0).
  - rewrite Z.testbit_neg_r by lia.
    replace (0 <=? j) with false by (symmetry; apply Z.leb_gt; lia). reflexivity.
  - rewrite Z.shiftr_spec by lia. rewrite andb_comm. reflexivity.
Qed.

Lemma testbit_shiftl_gen (x k i : Z) :
  0 <= k -> Z.testbit (Z.shiftl x k) i = (k <=? i) && Z.testbit x (i - k).
Proof.
  intros Hk. destruct (Z.leb_spec k i).
  - rewrite Z.shiftl_spec by lia. reflexivity.
  - destruct (Z.ltb_spec i 0).
    + rewrite Z.testbit_neg_r by lia. reflexivity.
    + rewrite Z.shiftl_spec_low by lia. reflexivity.
Qed.

Ltac decide_cmps :=
  repeat match goal with
  | |- context [?a <? ?b] =>
      first [ replace (a <? b) with true by (symmetry; apply Z.ltb_lt; lia)
            | replace (a <? b) with false by (symmetry; apply Z.ltb_ge; lia) ]
  | |- context [?a <=? ?b] =>
      first [ replace (a <=? b) with true by (symmetry; apply Z.leb_le; lia)
            | replace (a <=? b) with false by (symmetry; apply Z.leb_gt; lia) ]
  end.

Lemma u32_le_bytes (n : Z) :
  0 <= n < 2 ^ 32 ->
  Z.lor (Z.land n 255)
    (Z.lor (Z.shiftl (Z.land (Z.shiftr n 8) 255) 8)
       (Z.lor (Z.shiftl (Z.land (Z.shiftr n 16) 255) 16)
          (Z.shiftl (Z.land (Z.shiftr n 24) 255) 24))) = n.
Proof.
  intros Hn. apply Z.bits_inj'. intros i Hi.
  rewrite !Z.lor_spec, !testbit_shiftl_gen by lia.
  rewrite !testbit_byte_field by lia.
  rewrite Z.land_spec, testbit_255.
  replace (i - 8 + 8) with i by lia.
  replace (i - 16 + 16) with i by lia.
  replace (i - 24 + 24) with i by lia.
  assert (Hhi : 32 <= i -> Z.testbit n i = false).
  { intros H32. apply Z.bits_above_log2; [lia|].
    destruct (Z.eq_dec n 0) as [->|Hnz]; [cbn; lia|].
    assert (Z.log2 n < 32) by (apply Z.log2_lt_pow2; lia). lia. }
  destruct (Z.lt_ge_cases i 8); [|destruct (Z.lt_ge_cases i 16);
    [|destruct (Z.lt_ge_cases i 24); [|destruct (Z.lt_ge_cases i 32)]]];
  decide_cmps; cbn [andb orb];
  rewrite ?andb_true_r, ?andb_false_r, ?orb_false_r; try reflexivity.
  rewrite Hhi by lia. reflexivity.
Qed.

Lemma obind_Ok {E A B} (m : outcome E A) (f : A -> outcome E B) (r : B) :
  obind m f = Ok r -> exists a, m = Ok a /\ f a = Ok r.
Proof. destruct m; cbn; intros H; [eauto | discriminate | discriminate]. Qed.

Lemma obind_Panic {E A B} (m : outcome E A) (f : A -> outcome E B) :
  obind m f = Panic -> m = Panic \/ exists a, m = Ok a /\ f a = Panic.
Proof. destruct m; cbn; intros H; [eauto | discriminate | auto]. Qed.

Lemma reslice_Ok_within {E} (s t : goslice) (lo hi : nat) :
  @reslice E s lo hi = Ok t -> (hi <= len s)%nat ->
  (lo <= hi)%nat /\ elems t = firstn (hi - lo) (skipn lo (elems s)).
Proof.
  intros H Hhi.
  destruct (Nat.le_gt_cases lo hi) as [B|B];
    [|rewrite reslice_inverted in H by lia; discriminate].
  rewrite (reslice_within s lo hi) in H by lia.
  injection H as <-. split; [exact B | reflexivity].
Qed.

Lemma index_Ok {E} (s : goslice) (i : nat) (v : Z) :
  @index E s i = Ok v -> (i < len s)%nat /\ v = nth i (elems s) 0.
Proof.
  unfold index. destruct (Nat.ltb_spec i (len s)) as [Hi|Hi]; intros H;
    [|discriminate].
  injection H as <-. auto.
Qed.

Lemma if_Err_Ok {A} (b : bool) (e : codec_err) (k : result A) (r : A) :
  (if b then Err e else k) = Ok r -> b = false /\ k = Ok r.
Proof. destruct b; intros H; [discriminate | auto]. Qed.

Lemma nth_firstn_lt (i k : nat) (l : list Z) :
  (i < k)%nat -> nth i (firstn k l) 0 = nth i l 0.
Proof.
  revert i l; induction k as [|k IH]; intros i l H; [lia|].
  destruct l as [|x l]; [destruct i; reflexivity|].
  destruct i as [|i]; cbn; [reflexivity|]. apply IH. lia.
Qed.

Lemma ParseHeader_Ok (t : goslice) (h : Header) :
  ParseHeader t = Ok h ->
  nth 0 (elems t) 0 = StartByte /\ Length h = declared_length (elems t).
Proof.
  destruct t as [l sp]. unfold ParseHeader, len. cbn [elems].
  destruct (Nat.ltb_spec (length l) 11) as [Hs|Hs]; [discriminate|].
  do 11 (destruct l as [|? l]; [cbn in Hs; lia|]).
  cbn - [Z.lor Z.shiftl Z.eqb StartByte].
  destruct (Z.eqb_spec z StartByte) as [E|E]; cbn [negb]; intros H; [|discriminate].
  injection H as <-. auto.
Qed.

Lemma ParseHeader_not_Panic (t : goslice) : ParseHeader t <> Panic.
Proof.
  destruct t as [l sp]. unfold ParseHeader, len. cbn [elems].
  destruct (Nat.ltb_spec (length l) 11) as [Hs|Hs]; [discriminate|].
  do 11 (destruct l as [|? l]; [cbn in Hs; lia|]).
  cbn - [Z.lor Z.shiftl Z.eqb StartByte].
  destruct (Z.eqb z StartByte); discriminate.
Qed.

Ltac slice_bounds :=
  unfold len in *; cbn [elems] in *; rewrite ?length_firstn, ?length_skipn in *; lia.

Lemma io_bind_trace {A B} (m : io A) (k : A -> io B) (st : solarmanTransporter) :
  snd (io_bind m k st)
  = snd (m st) ++ snd (k (fst (fst (m st))) (snd (fst (m st)))).
Proof.
  unfold io_bind. destruct (m st) as [[a st1] t1]. cbn [fst snd].
  destruct (k a st1) as [[b st2] t2]. reflexivity.
Qed.

(** Walk through one run of [Send], keeping [connect] and [reconnect]
    opaque: split on their results and on every answer of the network. *)
Ltac send_walk H :=
  repeat (cbn - [connect reconnect firstn] in H;
    match type of H with
    | context [connect ?n ?s] => destruct (connect n s) as [[[?|] ?] ?]
    | context [reconnect ?n ?s] => destruct (reconnect n s) as [[[?|] ?] ?]
    | context [write_result ?n ?i] =>
        destruct (write_result n i) as [? [?|]]
    | context [read_result ?n ?i] =>
        destruct (read_result n i) as [? [?|]]
    | context [is_epipe ?e] => destruct (is_epipe e) eqn:?
    | context [?a <? ?b] => destruct (a <? b)
    end).

Lemma ends_with_single {A} (x : A) : exists pre, [x] = pre ++ [x].
Proof. exists []. reflexivity. Qed.

Lemma ends_with_app {A} (l m : list A) (x : A) :
  (exists pre, m = pre ++ [x]) -> exists pre, l ++ m = pre ++ [x].
Proof. intros [pre ->]. exists (l ++ pre). apply app_assoc. Qed.

Lemma ends_with_cons {A} (a : A) (m : list A) (x : A) :
  (exists pre, m = pre ++ [x]) -> exists pre, a :: m = pre ++ [x].
Proof. intros [pre ->]. exists (a :: pre). reflexivity. Qed.

Ltac ends_with_tac :=
  repeat first [ exact (ends_with_single _)
               | apply ends_with_app | apply ends_with_cons ].

(* ------------------------------------------------------------------ *)
(** ** Checksum, CRC and sequence counter *)

(** C8: [CheckSum] is the sum of the bytes modulo 256; in particular
    [CheckSum [1;2;3;4] = 0x0A] and the checksum of the empty sequence is
    0. *)
Theorem CheckSum_sum_mod_256 :
  (forall b, CheckSum b = byte_sum b mod 256)
  /\ CheckSum [0x01; 0x02; 0x03; 0x04] = 0x0A
  /\ CheckSum [] = 0x00.
Proof.
  split; [|split; reflexivity].
  intros b. unfold CheckSum.
  rewrite checksum_fold by lia. rewrite land_255_mod, Z.add_0_l.
  apply Z.mod_mod; lia.
Qed.

(** C9: on byte inputs [CRCFromBytes] computes the reflected CRC-16 of
    the specification (feedback polynomial 0xA001 applied least
    significant bit first, eight bit steps per byte, register starting at
    0xFFFF, result [low byte; high byte]); and
    [CRCFromBytes [1;3;2;0x71;0;1] = [0xD5; 0xA9]]. *)
Theorem CRCFromBytes_reflected_crc16 :
  (forall data, Forall is_byte data -> CRCFromBytes data = crc16_ref data)
  /\ CRCFromBytes [0x01; 0x03; 0x02; 0x71; 0x00; 0x01] = [0xD5; 0xA9].
Proof.
  split; [|reflexivity].
  intros data Hdata. unfold CRCFromBytes, crc16_ref.
  rewrite crc_fold_ref by exact Hdata.
  set (r := fold_left crc16_ref_byte data 0xFFFF).
  rewrite !land_255_mod, Z.shiftr_div_pow2 by lia. reflexivity.
Qed.

Lemma CRCFromBytes_reflected_crc16_witness :
  Forall is_byte [0x01; 0x03; 0x02; 0x71; 0x00; 0x01]
  /\ CRCFromBytes [0x01; 0x03; 0x02; 0x71; 0x00; 0x01]
     = crc16_ref [0x01; 0x03; 0x02; 0x71; 0x00; 0x01].
Proof.
  assert (H : Forall is_byte [0x01; 0x03; 0x02; 0x71; 0x00; 0x01])
    by (repeat constructor; unfold is_byte; lia).
  split; [exact H|].
  apply (proj1 CRCFromBytes_reflected_crc16). exact H.
Defined.

(** C7: the sequence counter is one byte, advanced before each frame
    modulo 256: over consecutive [Encode] calls from a packager whose
    counter is [c], the byte at offset 5 of the [(k+1)]-th frame is
    [(c + k + 1) mod 256], and afterwards only the counter has changed
    (to [(c + n) mod 256] after [n] calls). *)
Theorem Encode_sequence_counter (mb : solarmanPackager)
    (pdus : list ProtocolDataUnit) :
  is_byte (serial mb) ->
  (forall k frame, nth_error (fst (encode_all mb pdus)) k = Some frame ->
     nth_error frame 5 = Some ((serial mb + Z.of_nat (S k)) mod 256))
  /\ snd (encode_all mb pdus)
     = mkPackager (SlaveID mb) (LoggerSerial mb)
                  ((serial mb + Z.of_nat (length pdus)) mod 256).
Proof. intros H. apply encode_all_spec, H. Qed.

Lemma Encode_sequence_counter_witness :
  is_byte 254
  /\ snd (encode_all (mkPackager 1 0x12345678 254)
                     [mkPDU 3 [0; 1; 0; 2]; mkPDU 3 [0; 1; 0; 2]; mkPDU 4 [0]])
     = mkPackager 1 0x12345678 1.
Proof.
  split; [unfold is_byte; lia|].
  apply (proj2 (Encode_sequence_counter (mkPackager 1 0x12345678 254)
           [mkPDU 3 [0; 1; 0; 2]; mkPDU 3 [0; 1; 0; 2]; mkPDU 4 [0]]
           ltac:(unfold is_byte; cbn; lia))).
Defined.

(* ------------------------------------------------------------------ *)
(** ** [Parse]: the length guard *)

(** C4: [Parse] is not total.  Every frame of 11 to 26 bytes with the
    right start byte and a correct outer checksum makes it panic: at
    11 or 12 bytes [data[11:len(data)-2]] is inverted, and from 13 bytes
    on, once the declared payload length matches, [data[25:len(data)-2]]
    is inverted. *)
Theorem Parse_panics_on_short_frames (l : list Z) :
  (11 <= length l <= 26)%nat ->
  nth 0 l 0 = StartByte ->
  outer_checksum_ok l ->
  ((length l < 13)%nat \/ declared_length l = Z.of_nat (length l - 13)) ->
  Parse (of_list l) = Panic.
Proof.
  intros Hn Hs Hc Hd.
  destruct (ParseHeader_prefix l ltac:(lia) Hs) as [h [Hh Hlen]].
  unfold Parse. change (len (of_list l)) with (length l).
  replace (Nat.ltb (length l) 11) with false by (symmetry; apply Nat.ltb_ge; lia).
  rewrite reslice_of_list by lia. cbn [obind].
  change (11 - 0)%nat with 11%nat. change (skipn 0 l) with l.
  rewrite Hh. cbn [obind].
  rewrite reslice_of_list by lia. cbn [obind elems].
  rewrite index_ok by (cbn; lia). cbn [obind elems].
  unfold outer_checksum_ok in Hc.
  replace (length l - 2 - 1)%nat with (length l - 3)%nat by lia.
  rewrite Hc, Z.eqb_refl. cbn [negb].
  destruct (Nat.lt_ge_cases (length l) 13) as [Hlt|Hge].
  - rewrite reslice_inverted by lia. reflexivity.
  - rewrite reslice_of_list by lia. cbn [obind].
    rewrite !len_mk, length_firstn, length_skipn.
    destruct Hd as [Hd|Hd]; [lia|].
    rewrite Hlen, Hd.
    replace (Nat.min (length l - 2 - 11) (length l - 11)) with (length l - 13)%nat
      by lia.
    rewrite Z.mod_small by lia. rewrite Z.eqb_refl. cbn [negb].
    rewrite reslice_inverted by lia. reflexivity.
Qed.

Lemma Parse_panics_on_short_frames_witness :
  let l := [0xA5; 0x00; 0x00; 0x10; 0x15; 0x01; 0x00; 0x00; 0x00; 0x00; 0x00;
            0x26; 0x15] in
  (11 <= length l <= 26)%nat /\ nth 0 l 0 = StartByte /\ outer_checksum_ok l
  /\ declared_length l = Z.of_nat (length l - 13)
  /\ Parse (of_list l) = Panic.
Proof.
  cbv zeta.
  assert (H1 : (11 <= length [0xA5; 0x00; 0x00; 0x10; 0x15; 0x01; 0x00; 0x00;
                               0x00; 0x00; 0x00; 0x26; 0x15] <= 26)%nat)
    by (cbn; lia).
  assert (H2 : outer_checksum_ok [0xA5; 0x00; 0x00; 0x10; 0x15; 0x01; 0x00; 0x00;
                                  0x00; 0x00; 0x00; 0x26; 0x15])
    by reflexivity.
  split; [exact H1|]. split; [reflexivity|]. split; [exact H2|].
  split; [reflexivity|].
  apply Parse_panics_on_short_frames; [exact H1 | reflexivity | exact H2 |].
  right. reflexivity.
Defined.

(** C5 (evaluation at the failing input): a 20-byte frame with the right
    start byte, a correct outer checksum and a declared payload length (7)
    equal to the measured one has an RTU segment shorter than 5 bytes;
    [Parse] panics on [data[25:len(data)-2]] instead of returning the
    "invalid RTU frame" error. *)
Theorem Parse_short_rtu_panics :
  let l := [0xA5; 0x07; 0x00; 0x10; 0x15; 0x01; 0x00; 0x00; 0x00; 0x00; 0x00;
            0x02; 0x01; 0x00; 0x00; 0x00; 0x00; 0x00; 0x30; 0x15] in
  outer_checksum_ok l /\ declared_length l = Z.of_nat (length l - 13)
  /\ Parse (of_list l) = Panic.
Proof. vm_compute. repeat split. Qed.

(* ------------------------------------------------------------------ *)
(** ** [Verify] *)

(** C6 (amended): for a request of at least 11 bytes and a response of
    at least 11 bytes with the right start byte and a correct outer
    checksum, [Verify] succeeds exactly when the sequence bytes (offset
    5), the control codes (response = request - 0x3000 on 16 bits) and
    the logger serials (offsets 7..11) agree; with equal sequence bytes a
    control-code mismatch and a serial mismatch give their own errors;
    the packager is left unchanged. *)
Theorem Verify_correlation_checks (mb : solarmanPackager) (req resp : goslice) :
  (11 <= len req)%nat ->
  (11 <= len resp)%nat -> nth 0 (elems resp) 0 = StartByte ->
  outer_checksum_ok (elems resp) ->
  snd (Verify mb req resp) = mb
  /\ (fst (Verify mb req resp) = Ok tt <->
      seq_byte (elems req) = seq_byte (elems resp)
      /\ control_code (elems resp) = (control_code (elems req) - 0x3000) mod 65536
      /\ serial_bytes (elems req) = serial_bytes (elems resp))
  /\ (seq_byte (elems req) = seq_byte (elems resp) ->
      control_code (elems resp) <> (control_code (elems req) - 0x3000) mod 65536 ->
      fst (Verify mb req resp)
      = Err (ErrControlCode ((control_code (elems req) - 0x3000) mod 65536)
                            (control_code (elems resp))))
  /\ (seq_byte (elems req) = seq_byte (elems resp) ->
      control_code (elems resp) = (control_code (elems req) - 0x3000) mod 65536 ->
      serial_bytes (elems req) <> serial_bytes (elems resp) ->
      fst (Verify mb req resp)
      = Err (ErrLoggerSerial (serial_bytes (elems req)) (serial_bytes (elems resp)))).
Proof.
  intros Hreq Hlen Hs Hc.
  split; [reflexivity|].
  rewrite (Verify_correlation mb req resp Hreq Hlen Hs Hc).
  destruct (Z.eqb_spec (seq_byte (elems req)) (seq_byte (elems resp))) as [Eq|Eq];
  destruct (Z.eqb_spec (control_code (elems resp))
                       ((control_code (elems req) - 0x3000) mod 65536)) as [Ec|Ec];
  destruct (bytes_equal (serial_bytes (elems req)) (serial_bytes (elems resp)))
    eqn:Es;
  pose proof (bytes_equal_spec (serial_bytes (elems req)) (serial_bytes (elems resp)))
    as Hbs;
  cbn [negb]; repeat split; intros; try discriminate; try tauto; try reflexivity;
  try (destruct Hbs; intuition congruence).
Qed.

Lemma Verify_correlation_checks_witness :
  let req := of_list [0xA5; 0x0E; 0x00; 0x10; 0x45; 0x01; 0x00; 0x4F; 0xAD; 0x6D; 0xA5] in
  let resp := of_list [0xA5; 0x0E; 0x00; 0x10; 0x15; 0x01; 0x00; 0x4F; 0xAD; 0x6D;
                       0xA5; 0x42; 0x15] in
  fst (Verify (mkPackager 0 0 0) req resp) = Ok tt.
Proof.
  cbv zeta.
  apply (proj2 (proj1 (proj2 (Verify_correlation_checks (mkPackager 0 0 0)
    (of_list [0xA5; 0x0E; 0x00; 0x10; 0x45; 0x01; 0x00; 0x4F; 0xAD; 0x6D; 0xA5])
    (of_list [0xA5; 0x0E; 0x00; 0x10; 0x15; 0x01; 0x00; 0x4F; 0xAD; 0x6D; 0xA5;
              0x42; 0x15])
    ltac:(cbn; lia) ltac:(cbn; lia) eq_refl eq_refl)))).
  repeat split; reflexivity.
Defined.

(** C6 as stated fails: a 1-byte request with the response of the
    package's own test (which passes the length, start-byte and checksum
    checks) makes [Verify] panic instead of succeeding or failing. *)
Lemma Verify_short_request_counterexample :
  let resp := [0xA5; 0x0E; 0x00; 0x10; 0x15; 0x01; 0x00; 0x4F; 0xAD; 0x6D; 0xA5;
               0x42; 0x15] in
  (11 <= length resp)%nat /\ nth 0 resp 0 = StartByte /\ outer_checksum_ok resp
  /\ fst (Verify (mkPackager 0 0 0) (of_list [0xA5]) (of_list resp)) = Panic.
Proof. vm_compute. repeat split; lia. Qed.

(** C10: the request is never length-checked.  Whenever its backing array
    holds at most 5 bytes, [aduRequest[5:6]] is out of range and [Verify]
    panics on any response that passes the length, start-byte and
    checksum checks. *)
Theorem Verify_panics_on_short_request (mb : solarmanPackager) (req resp : goslice) :
  (cap req <= 5)%nat ->
  (11 <= len resp)%nat -> nth 0 (elems resp) 0 = StartByte ->
  outer_checksum_ok (elems resp) ->
  fst (Verify mb req resp) = Panic.
Proof.
  intros Hreq Hlen Hs Hc.
  verify_response_checks resp Hlen Hs Hc.
  rewrite reslice_beyond_cap by lia. reflexivity.
Qed.

Lemma Verify_panics_on_short_request_witness :
  let req := of_list [0xA5; 0x0E; 0x00; 0x10; 0x45] in
  let resp := of_list [0xA5; 0x0E; 0x00; 0x10; 0x15; 0x01; 0x00; 0x4F; 0xAD; 0x6D;
                       0xA5; 0x42; 0x15] in
  (len req < 11)%nat /\ fst (Verify (mkPackager 0 0 0) req resp) = Panic.
Proof.
  cbv zeta. split; [cbn; lia|].
  apply Verify_panics_on_short_request; [cbn; lia | cbn; lia | reflexivity |].
  reflexivity.
Defined.

(* ------------------------------------------------------------------ *)
(** ** [Decode] after [Encode] *)

(** C1 (amended): [Encode] writes the 15-byte request payload prefix
    (frame type, 2-byte sensor type, three 4-byte times) while [Parse]
    reads the RTU segment from offset 25, after a 14-byte response
    prefix.  So [Decode] of an [Encode]d frame never gives back the PDU
    passed to [Encode]; the round trip holds for frames in the response
    layout: any 11-byte header with the start byte and a declared
    payload length matching the frame, any 14-byte payload prefix, then
    slave id, function code, non-empty data and their CRC, the outer
    checksum and an end byte decode to exactly that function code and
    data. *)
Theorem Decode_Encode_layouts :
  (forall mb pdu,
     fst (Decode mb (of_list (fst (Encode mb pdu)))) <> Ok pdu)
  /\
  (forall mb (h pre : list Z) (slave fc e : Z) (d : list Z),
     length h = 11%nat -> length pre = 14%nat -> d <> [] ->
     nth 0 h 0 = StartByte ->
     declared_length h = Z.of_nat (18 + length d) mod 65536 ->
     let rtu := [slave; fc] ++ d ++ CRCFromBytes ([slave; fc] ++ d) in
     fst (Decode mb (of_list (h ++ pre ++ rtu ++ [CheckSum (tl h ++ pre ++ rtu); e])))
     = Ok (mkPDU fc d)).
Proof.
  split.
  - intros mb pdu.
    destruct (Encode_frame_layout mb pdu) as [h [pre [E [Hh [Hp [Hs Hd]]]]]].
    set (rtu := [0; SlaveID mb; FunctionCode pdu] ++ Data pdu ++ CRC (SlaveID mb) pdu)
      in *.
    assert (Hrtu : length rtu = (5 + length (Data pdu))%nat)
      by (subst rtu; rewrite !length_app; unfold CRC; rewrite CRCFromBytes_length;
          cbn; lia).
    pose proof (Parse_frame_layout h pre rtu _ EndByte Hh Hp ltac:(lia) Hs Hd eq_refl)
      as HP.
    unfold Decode. cbn [fst]. rewrite E.
    destruct (Parse _) as [r|err|]; [|discriminate|contradiction].
    destruct HP as [_ HP]. rewrite HP. intros Heq. injection Heq as Heq.
    apply (f_equal Data) in Heq. cbn [Data] in Heq.
    apply (f_equal (@length Z)) in Heq as Hdata.
    rewrite length_firstn in Hdata. cbn [length] in Hdata. rewrite length_app in Hdata. unfold CRC in Hdata. rewrite CRCFromBytes_length in Hdata. lia.
  - intros mb h pre slave fc e d Hh Hp Hd Hs Hdecl rtu.
    assert (Hc : length (CRCFromBytes ([slave; fc] ++ d)) = 2%nat)
      by apply CRCFromBytes_length.
    assert (Hrtu : length rtu = (4 + length d)%nat)
      by (subst rtu; rewrite !length_app, Hc; cbn; lia).
    assert (Hd1 : (1 <= length d)%nat) by (destruct d; [congruence|cbn; lia]).
    assert (Hrtu' : rtu = ([slave; fc] ++ d) ++ CRCFromBytes ([slave; fc] ++ d))
      by (subst rtu; rewrite <- app_assoc; reflexivity).
    pose proof (Parse_frame_layout h pre rtu _ e Hh Hp ltac:(lia) Hs
                  ltac:(rewrite Hrtu; exact Hdecl) eq_refl) as HP.
    unfold Decode. cbn [fst].
    assert (Hsk : skipn (length rtu - 2) rtu = CRCFromBytes ([slave; fc] ++ d)).
    { rewrite Hrtu' at 2. apply skipn_exact. rewrite Hrtu, length_app. cbn. lia. }
    assert (Hfi : firstn (length rtu - 2) rtu = [slave; fc] ++ d).
    { rewrite Hrtu' at 2. apply firstn_exact. rewrite Hrtu, length_app. cbn. lia. }
    rewrite Hsk, Hfi in HP.
    destruct (Parse _) as [r|err|]; [|destruct HP as [HP _]; contradiction|contradiction].
    destruct HP as [_ ->]. f_equal. f_equal.
    rewrite Hrtu. subst rtu. cbn [app skipn]. apply firstn_exact. lia.
Qed.

Lemma Decode_Encode_layouts_witness :
  fst (Decode (mkPackager 0 0 0)
         (of_list [0xA5; 0x16; 0x00; 0x10; 0x45; 0x01; 0x02; 0x12; 0x34; 0x56; 0x78;
                   0x02; 0x01; 0x10; 0x00; 0x00; 0x00; 0x20; 0x00; 0x00; 0x00;
                   0x30; 0x00; 0x00; 0x00;
                   0x01; 0x03; 0x02; 0x71; 0x00; 0x01; 0xD5; 0xA9; 0xDB; 0x15]))
  = Ok (mkPDU 0x03 [0x02; 0x71; 0x00; 0x01]).
Proof.
  apply (proj2 Decode_Encode_layouts (mkPackager 0 0 0)
           [0xA5; 0x16; 0x00; 0x10; 0x45; 0x01; 0x02; 0x12; 0x34; 0x56; 0x78]
           [0x02; 0x01; 0x10; 0x00; 0x00; 0x00; 0x20; 0x00; 0x00; 0x00;
            0x30; 0x00; 0x00; 0x00]
           0x01 0x03 0x15 [0x02; 0x71; 0x00; 0x01]);
  [reflexivity | reflexivity | discriminate | reflexivity | reflexivity].
Defined.

(** C1 as stated fails: the PDU of the package's Encode test (slave 1,
    function code 3, data [0;1;0;2]) does not survive [Decode]: the CRC
    is checked over [0; 1; 3; 0; 1; 0; 2] and fails. *)
Lemma Decode_Encode_counterexample :
  fst (Decode (mkPackager 0x01 0x12345678 0)
         (of_list (fst (Encode (mkPackager 0x01 0x12345678 0)
                               (mkPDU 0x03 [0x00; 0x01; 0x00; 0x02])))))
  = Err (ErrCRC [0x8E; 0xD0] [0x95; 0xCB]).
Proof. vm_compute. reflexivity. Qed.

(* ------------------------------------------------------------------ *)
(** ** Transporter *)

(** Claim C3: in [Send], a broken-pipe failure of the first write, or of
    the first read, is followed by exactly one recovery: the socket is
    closed, a new one dialled and, if that succeeds, the same request
    written again (and, for a read failure, read once more if the write
    succeeded).  No other close happens, so there is never a second
    recovery for the same step; and a failing dial, retried write or
    retried read is the last event of the call and its error is returned
    (wrapped) with an empty response.  Every write sends the request. *)
Theorem Send_single_recovery (net : network) (req : list Z)
    (st : solarmanTransporter) res st' tr :
  Send net req st = (res, st', tr) ->
  (forall pre post, tr = pre ++ EvClose :: post ->
     exists pre' a, pre = pre' ++ [a] /\ recovery_trigger pre' a = true) /\
  (forall pre a post, tr = pre ++ a :: post -> recovery_trigger pre a = true ->
     exists r post', post = EvClose :: EvDial r :: post' /\
       (r = None -> exists r' post'', post' = EvWrite req r' :: post'' /\
          (is_read_ev a = true -> r' = None ->
           exists r'', post'' = [EvRead r'']))) /\
  (forall pre a post e, tr = pre ++ a :: post -> ev_error a = Some e ->
     retried_or_dial pre a = true ->
     post = [] /\ exists ctx, res = ([], Some (EWrapped ctx e))) /\
  (forall pre b r post, tr = pre ++ EvWrite b r :: post -> b = req).
Proof.
  intros HS. destruct st as [c d w k].
  unfold Send, send_write, send_read, connect, reconnect, write, read,
    io_bind, io_ret, errors_is_EPIPE in HS.
  destruct c; send_cases HS; inversion HS; subst; clear HS;
  (split; [|split; [|split]]).
  all: try (intros pre post H; exists (removelast pre), (last pre EvClose);
              cut_trace H;
              (split; [reflexivity|cbn; epipe_simpl; reflexivity])).
  all: try (intros pre a post H Ht; cut_trace H; cbn in Ht; epipe_simpl;
              cbn in Ht; first [discriminate | recovery_shape]).
  all: try (intros pre a post e0 H He Hr; cut_trace H; cbn in He, Hr;
              first [discriminate | injection He as He; subst;
                                    split; [reflexivity|eexists; reflexivity]]).
  all: try (intros pre b r post H; cut_trace H; reflexivity).
Qed.

(** Witness for C3: a first write failing with [EPIPE] on a fresh
    transporter gives close, dial, the same write again, and a read. *)
Lemma Send_single_recovery_witness :
  Send (first_write_fails (0, Some EPIPE)) [1; 2; 3] (mkTransporter None 0 0 0)
  = (([0xA5; 0x15], None), mkTransporter (Some 1%nat) 2 2 1,
     [EvDial None; EvWrite [1; 2; 3] (Some EPIPE); EvClose; EvDial None;
      EvWrite [1; 2; 3] None; EvRead None]) /\
  (forall pre post,
     [EvDial None; EvWrite [1; 2; 3] (Some EPIPE); EvClose; EvDial None;
      EvWrite [1; 2; 3] None; EvRead None] = pre ++ EvClose :: post ->
     exists pre' a, pre = pre' ++ [a] /\ recovery_trigger pre' a = true).
Proof.
  split; [reflexivity|].
  exact (proj1 (Send_single_recovery (first_write_fails (0, Some EPIPE))
                  [1; 2; 3] (mkTransporter None 0 0 0) _ _ _
                  ltac:(reflexivity))).
Defined.

(** Claim C2 (the source does not do this): a first write failing with an
    error that is not [EPIPE] is not returned.  With [ECONNRESET] (errno
    104), and with a short write of one byte out of three, [Send] goes on
    to read and returns the read's bytes with no error; the write error
    appears only in the trace. *)
Theorem Send_drops_write_error :
  Send (first_write_fails (0, Some (ESys 104))) [1; 2; 3]
       (mkTransporter None 0 0 0)
  = (([0xA5; 0x15], None), mkTransporter (Some 0%nat) 1 1 1,
     [EvDial None; EvWrite [1; 2; 3] (Some (ESys 104)); EvRead None]) /\
  Send (first_write_fails (1, None)) [1; 2; 3] (mkTransporter None 0 0 0)
  = (([0xA5; 0x15], None), mkTransporter (Some 0%nat) 1 1 1,
     [EvDial None; EvWrite [1; 2; 3] (Some (EShortWrite 1 3)); EvRead None]).
Proof. split; reflexivity. Qed.

(* ------------------------------------------------------------------ *)
(** ** Further properties of the codec and the transporter *)

(** X1: appending the CRC that [CRCFromBytes] computes for a byte sequence
    gives a sequence whose CRC is [0; 0] (the CRC-16/Modbus residue). *)
Theorem CRCFromBytes_residue (data : list Z) :
  Forall is_byte data ->
  CRCFromBytes (data ++ CRCFromBytes data) = [0; 0].
Proof.
  intros Hd. unfold CRCFromBytes at 2.
  set (r := fold_left crc_byte data 0xFFFF).
  assert (Hr : 0 <= r < 65536) by (apply crc_fold_u16; [exact Hd | lia]).
  unfold CRCFromBytes. rewrite fold_left_app. fold r. cbn [fold_left].
  rewrite crc_byte_own_low by lia.
  assert (Hh : Z.land (Z.shiftr r 8) 255 = Z.shiftr r 8).
  { rewrite land_255_mod, Z.shiftr_div_pow2 by lia. apply Z.mod_small.
    split; [apply Z.div_pos|apply Z.div_lt_upper_bound]; cbn; lia. }
  rewrite Hh. unfold crc_byte. rewrite Z.lxor_nilpotent. reflexivity.
Qed.

Lemma CRCFromBytes_residue_witness :
  Forall is_byte [1; 3; 2; 0x71; 0; 1] /\
  CRCFromBytes ([1; 3; 2; 0x71; 0; 1] ++ CRCFromBytes [1; 3; 2; 0x71; 0; 1]) = [0; 0].
Proof.
  assert (H : Forall is_byte [1; 3; 2; 0x71; 0; 1])
    by (repeat constructor; unfold is_byte; lia).
  split; [exact H | apply (CRCFromBytes_residue _ H)].
Defined.

(** X2: [CheckSum] of a concatenation is the sum of the two checksums
    modulo 256. *)
Theorem CheckSum_app (a b : list Z) :
  CheckSum (a ++ b) = (CheckSum a + CheckSum b) mod 256.
Proof.
  rewrite !CheckSum_byte_sum, byte_sum_app.
  rewrite Zplus_mod. reflexivity.
Qed.

(** X3: the frame built by [Encode] is 32 bytes longer than the PDU's
    data, starts with 0xA5, ends with 0x15, carries a correct outer
    checksum and declares the length of the frame minus 13 bytes in its
    header. *)
Theorem Encode_frame_shape (mb : solarmanPackager) (pdu : ProtocolDataUnit) :
  let frame := fst (Encode mb pdu) in
  length frame = (32 + length (Data pdu))%nat /\
  nth 0 frame 0 = StartByte /\
  nth (length frame - 1) frame 0 = EndByte /\
  outer_checksum_ok frame /\
  declared_length frame = Z.of_nat (length frame - 13) mod 65536.
Proof.
  intros frame. subst frame.
  destruct (Encode_frame_checksum mb pdu) as (Hl & Hs & He & Hc & Hd).
  repeat split; try assumption.
  rewrite Hd, Hl.
  replace (32 + length (Data pdu) - 13)%nat with (19 + length (Data pdu))%nat
    by lia.
  reflexivity.
Qed.

(** X4: [ParseHeader] applied to the first 11 bytes of an [Encode] frame
    returns the header written: start byte, declared length, request
    control code 0x4510, the incremented sequence number and the logger
    serial (for a serial that fits in 32 bits). *)
Theorem Encode_ParseHeader (mb : solarmanPackager) (pdu : ProtocolDataUnit) :
  0 <= LoggerSerial mb < 2 ^ 32 ->
  let frame := fst (Encode mb pdu) in
  ParseHeader (mkslice (firstn 11 frame) (skipn 11 frame))
  = Ok (mkHeader StartByte (Z.of_nat (length frame - 13) mod 65536)
                 ControlCodeRequest ((serial mb + 1) mod 256) (LoggerSerial mb)).
Proof.
  intros Hser frame.
  destruct (Encode_frame_checksum mb pdu) as (Hl & _ & _ & _ & Hd).
  fold frame in Hl, Hd. rewrite Hl.
  replace (32 + length (Data pdu) - 13)%nat with (19 + length (Data pdu))%nat by lia.
  rewrite <- Hd. clear Hl Hd.
  subst frame. unfold Encode, getNextSerial, declared_length. cbn [fst].
  set (n := Z.of_nat (length _) mod 65536).
  set (s := (serial mb + 1) mod 256).
  cbn - [Z.lor Z.shiftl Z.land Z.shiftr Z.modulo].
  rewrite (u32_le_bytes (LoggerSerial mb) Hser).
  replace (Z.lor s (Z.shiftl 0 8)) with s by (rewrite Z.shiftl_0_l, Z.lor_0_r; reflexivity).
  reflexivity.
Qed.

Lemma Encode_ParseHeader_witness :
  0 <= LoggerSerial (mkPackager 1 0x12345678 0) < 2 ^ 32 /\
  let frame := fst (Encode (mkPackager 1 0x12345678 0) (mkPDU 3 [0; 1; 0; 2])) in
  ParseHeader (mkslice (firstn 11 frame) (skipn 11 frame))
  = Ok (mkHeader StartByte (Z.of_nat (length frame - 13) mod 65536)
                 ControlCodeRequest 1 0x12345678).
Proof.
  assert (H : 0 <= LoggerSerial (mkPackager 1 0x12345678 0) < 2 ^ 32)
    by (cbn; lia).
  split; [exact H | apply (Encode_ParseHeader _ (mkPDU 3 [0; 1; 0; 2]) H)].
Defined.

(** X5: [Verify] rejects a response that is the request frame itself: the
    correlation checks pass and the control code 0x4510 is refused with
    [ErrControlCode]. *)
Theorem Verify_rejects_echoed_request
    (mb mb' : solarmanPackager) (pdu : ProtocolDataUnit) :
  let frame := of_list (fst (Encode mb pdu)) in
  Verify mb' frame frame
  = (Err (ErrControlCode 0x1510 ControlCodeRequest), mb').
Proof.
  intros frame.
  destruct (Encode_frame_checksum mb pdu) as (Hl & Hs & _ & Hc & _).
  assert (Hlen : (11 <= len frame)%nat) by (unfold len, frame; cbn [elems of_list]; lia).
  assert (Hv := Verify_correlation mb' frame frame Hlen Hlen Hs Hc).
  unfold Verify in Hv |- *. cbn [fst] in Hv. rewrite Hv. f_equal.
  rewrite Z.eqb_refl. cbn [negb].
  subst frame. unfold control_code. cbn [elems of_list].
  unfold Encode, getNextSerial. cbn [fst]. reflexivity.
Qed.

(** X6: [ParseHeader] never panics; it fails with [ErrDataTooShort] under
    11 bytes, with [ErrStartByte] when the first byte is not 0xA5, and
    otherwise reads the little-endian fields at offsets 1, 3, 5 and 7. *)
Theorem ParseHeader_spec (t : goslice) :
  let l := elems t in
  match ParseHeader t with
  | Ok h =>
      (11 <= len t)%nat /\ nth 0 l 0 = StartByte /\
      h = mkHeader StartByte (declared_length l) (control_code l)
                   (Z.lor (nth 5 l 0) (Z.shiftl (nth 6 l 0) 8))
                   (Z.lor (nth 7 l 0)
                      (Z.lor (Z.shiftl (nth 8 l 0) 8)
                         (Z.lor (Z.shiftl (nth 9 l 0) 16)
                                (Z.shiftl (nth 10 l 0) 24))))
  | Err e =>
      ((len t < 11)%nat /\ e = ErrDataTooShort (Z.of_nat (len t))) \/
      ((11 <= len t)%nat /\ nth 0 l 0 <> StartByte /\ e = ErrStartByte (nth 0 l 0))
  | Panic => False
  end.
Proof.
  intros l. subst l. destruct t as [l sp].
  unfold ParseHeader, len. cbn [elems].
  destruct (Nat.ltb_spec (length l) 11) as [Hs|Hs].
  - left. split; [exact Hs | reflexivity].
  - do 11 (destruct l as [|? l]; [cbn in Hs; lia|]).
    cbn - [Z.lor Z.shiftl Z.eqb StartByte].
    destruct (Z.eqb_spec z StartByte) as [E|E]; cbn [negb].
    + split; [exact Hs|]. split; [exact E|]. rewrite E. reflexivity.
    + right. split; [exact Hs|]. split; [exact E | reflexivity].
Qed.

(** X7: [Verify] checks the response's length, then its start byte, then
    its outer checksum, before looking at the request: each failure gives
    the corresponding error. *)
Theorem Verify_checks_response_first
    (mb : solarmanPackager) (req resp : goslice) :
  let r := elems resp in
  ((len resp < 11)%nat ->
     fst (Verify mb req resp) = Err (ErrResponseTooShort (Z.of_nat (len resp)))) /\
  ((11 <= len resp)%nat -> nth 0 r 0 <> StartByte ->
     fst (Verify mb req resp) = Err (ErrVerifyStart (nth 0 r 0))) /\
  ((11 <= len resp)%nat -> nth 0 r 0 = StartByte -> ~ outer_checksum_ok r ->
     fst (Verify mb req resp)
     = Err (ErrVerifyChecksum (CheckSum (firstn (length r - 3) (skipn 1 r)))
                              (nth (length r - 2) r 0))).
Proof.
  intros r. subst r. unfold Verify. cbn [fst].
  split; [|split].
  - intros H. apply Nat.ltb_lt in H. rewrite H. reflexivity.
  - intros H Hs. replace (Nat.ltb (len resp) 11) with false
      by (symmetry; apply Nat.ltb_ge; exact H).
    rewrite index_ok by lia. cbn [obind].
    replace (Z.eqb (nth 0 (elems resp) 0) StartByte) with false
      by (symmetry; apply Z.eqb_neq; exact Hs). reflexivity.
  - intros H Hs Hc. replace (Nat.ltb (len resp) 11) with false
      by (symmetry; apply Nat.ltb_ge; exact H).
    rewrite index_ok by lia. cbn [obind].
    rewrite Hs, Z.eqb_refl. cbn [negb].
    rewrite reslice_within by lia. cbn [obind elems].
    rewrite index_ok by lia. cbn [obind].
    unfold outer_checksum_ok in Hc. unfold len in *.
    replace (length (elems resp) - 2 - 1)%nat with (length (elems resp) - 3)%nat by lia.
    replace (Z.eqb _ _) with false by (symmetry; apply Z.eqb_neq; exact Hc).
    reflexivity.
Qed.

(** X8: a frame [Parse] accepts has at least 32 bytes, starts with 0xA5,
    has a correct outer checksum and a declared length equal to its length
    minus 13 modulo 65536; its RTU part has a correct CRC, and the PDU and
    checksum returned are read from their places in the frame. *)
Theorem Parse_Ok_frame (s : goslice) (r : Response) :
  Parse s = Ok r ->
  let l := elems s in
  let n := length l in
  let rtu := firstn (n - 27) (skipn 25 l) in
  (32 <= n)%nat /\
  nth 0 l 0 = StartByte /\
  outer_checksum_ok l /\
  Length (RHeader r) = declared_length l /\
  declared_length l = Z.of_nat (n - 13) mod 65536 /\
  CRCFromBytes (firstn (length rtu - 2) rtu) = skipn (length rtu - 2) rtu /\
  ModbusRTUFrame (RPayload r)
  = mkPDU (nth 1 rtu 0) (firstn (length rtu - 4) (skipn 2 rtu)) /\
  RChecksum r = nth (n - 1) l 0.
Proof.
  intros H l n rtu. subst l n rtu.
  unfold Parse in H.
  destruct (Nat.ltb_spec (len s) 11) as [Hs|Hs]; [discriminate|].
  apply obind_Ok in H as (h11 & H1 & H).
  apply reslice_Ok_within in H1 as [_ E11]; [|lia].
  destruct (ParseHeader h11) as [hd| |] eqn:HP; cbn [obind] in H; try discriminate.
  apply ParseHeader_Ok in HP as [HPs HPl].
  rewrite E11 in HPs, HPl. cbn [Nat.sub skipn] in HPs, HPl.
  unfold declared_length in HPl.
  rewrite nth_firstn_lt in HPs by lia.
  rewrite !nth_firstn_lt in HPl by lia.
  fold (declared_length (elems s)) in HPl.
  apply obind_Ok in H as (body & Hb & H).
  apply reslice_Ok_within in Hb as [_ Eb]; [|lia].
  apply obind_Ok in H as (pc & Hpc & H).
  apply index_Ok in Hpc as [_ Epc].
  apply if_Err_Ok in H as [Hck H].
  apply negb_false_iff, Z.eqb_eq in Hck.
  apply obind_Ok in H as (span & Hsp & H).
  apply reslice_Ok_within in Hsp as [Hsp Esp]; [|lia].
  apply if_Err_Ok in H as [Hln H].
  apply negb_false_iff, Z.eqb_eq in Hln.
  apply obind_Ok in H as (rt & Hrt & H).
  apply reslice_Ok_within in Hrt as [Hrt Ert]; [|lia].
  apply if_Err_Ok in H as [Hr5 H].
  apply Nat.ltb_ge in Hr5.
  apply obind_Ok in H as (pcrc & Hpcrc & H).
  apply reslice_Ok_within in Hpcrc as [_ Epcrc]; [|lia].
  apply obind_Ok in H as (ci & Hci & H).
  apply reslice_Ok_within in Hci as [_ Eci]; [|lia].
  apply if_Err_Ok in H as [Hcrc H].
  apply negb_false_iff, bytes_equal_spec in Hcrc.
  do 2 (apply obind_Ok in H as (? & _ & H)).
  do 3 (apply obind_Ok in H as (? & _ & H)).
  apply obind_Ok in H as (pdu & Hpdu & H).
  apply obind_Ok in Hpdu as (rt' & Hrt' & Hpdu).
  apply reslice_Ok_within in Hrt' as [_ Ert']; [|lia].
  unfold parseRTUFrame in Hpdu.
  apply obind_Ok in Hpdu as (fc & Hfc & Hpdu).
  apply index_Ok in Hfc as [_ Efc].
  apply obind_Ok in Hpdu as (d & Hd & Hpdu).
  apply reslice_Ok_within in Hd as [_ Ed]; [|lia].
  injection Hpdu as <-.
  apply obind_Ok in H as (cs & Hcs & H).
  apply index_Ok in Hcs as [_ Ecs].
  injection H as <-. cbn [RHeader RPayload ModbusRTUFrame RChecksum].
  unfold len in *.
  set (l := elems s) in *. set (n := length l) in *.
  assert (Lrt : length (elems rt) = (n - 27)%nat)
    by (rewrite Ert, length_firstn, length_skipn; lia).
  replace (n - 2 - 25)%nat with (n - 27)%nat in Ert, Ert' by lia.
  split; [lia|]. split; [exact HPs|]. split.
  { unfold outer_checksum_ok. fold n. rewrite <- Epc, <- Hck, Eb.
    f_equal. f_equal. lia. }
  split; [exact HPl|]. split.
  { rewrite <- HPl, Hln, Esp, length_firstn, length_skipn. f_equal. f_equal. lia. }
  rewrite <- Ert.
  split.
  { rewrite Eci, Epcrc, Lrt in Hcrc. rewrite Lrt.
    replace (n - 27 - (n - 27 - 2))%nat with 2%nat in Hcrc by lia.
    rewrite firstn_all2 in Hcrc by (rewrite length_skipn; lia).
    rewrite Nat.sub_0_r in Hcrc. symmetry. exact Hcrc. }
  split.
  { rewrite Efc, Ed, Ert', <- Ert.
    replace (length (elems rt) - 2 - 2)%nat with (length (elems rt) - 4)%nat
      by lia.
    reflexivity. }
  rewrite Ecs. reflexivity.
Qed.

Lemma Parse_Ok_frame_witness :
  let s := of_list [0xA5; 0x16; 0x00; 0x10; 0x45; 0x01; 0x02; 0x12; 0x34; 0x56;
                    0x78; 0x02; 0x01; 0x10; 0x00; 0x00; 0x00; 0x20; 0x00; 0x00;
                    0x00; 0x30; 0x00; 0x00; 0x00; 0x01; 0x03; 0x02; 0x71; 0x00;
                    0x01; 0xD5; 0xA9; 0xDB; 0x15] in
  let r := mkResponse (mkHeader 0xA5 22 0x4510 0x0201 0x78563412)
             (mkPayload 2 1 16 32 48 (mkPDU 3 [0x02; 0x71; 0x00; 0x01])) 0x15 in
  Parse s = Ok r /\
  let l := elems s in
  let n := length l in
  let rtu := firstn (n - 27) (skipn 25 l) in
  (32 <= n)%nat /\
  nth 0 l 0 = StartByte /\
  outer_checksum_ok l /\
  Length (RHeader r) = declared_length l /\
  declared_length l = Z.of_nat (n - 13) mod 65536 /\
  CRCFromBytes (firstn (length rtu - 2) rtu) = skipn (length rtu - 2) rtu /\
  ModbusRTUFrame (RPayload r) = mkPDU (nth 1 rtu 0) (firstn (length rtu - 4) (skipn 2 rtu)) /\
  RChecksum r = nth (n - 1) l 0.
Proof.
  intros s r.
  assert (H : Parse s = Ok r) by (vm_compute; reflexivity).
  split; [exact H | exact (Parse_Ok_frame s r H)].
Defined.

(** X9: [Parse] does not panic on frames of 27 bytes or more. *)
Theorem Parse_total_from_27 (s : goslice) :
  (27 <= len s)%nat -> Parse s <> Panic.
Proof.
  intros Hl. unfold Parse.
  replace (Nat.ltb (len s) 11) with false by (symmetry; apply Nat.ltb_ge; lia).
  rewrite reslice_within by lia. cbn [obind].
  destruct (ParseHeader _) as [hd|e|] eqn:HP; cbn [obind];
    [| discriminate | exfalso; eapply ParseHeader_not_Panic; exact HP].
  rewrite reslice_within by lia. cbn [obind elems].
  rewrite index_ok by lia. cbn [obind].
  destruct (negb _); [discriminate|].
  rewrite reslice_within by lia. cbn [obind].
  destruct (negb _); [discriminate|].
  rewrite reslice_within by lia. cbn [obind].
  destruct (Nat.ltb_spec (len (mkslice (firstn (len s - 2 - 25) (skipn 25 (elems s)))
                                      (skipn (len s - 2) (elems s ++ spare s)))) 5)
    as [H5|H5]; [discriminate|].
  rewrite !reslice_within by slice_bounds. cbn [obind elems].
  destruct (negb _); [discriminate|].
  rewrite !index_ok by lia. cbn [obind].
  do 3 (try (rewrite reslice_within by slice_bounds); cbn [obind];
        match goal with
        | |- context [le_uint32 ?t] =>
            destruct (@le_uint32_ok codec_err t) as [? ->];
            [slice_bounds|]
        end; cbn [obind]).
  try (rewrite reslice_within by slice_bounds). cbn [obind].
  unfold parseRTUFrame. rewrite index_ok by slice_bounds. cbn [obind].
  try (rewrite reslice_within by slice_bounds). cbn [obind].
  try (rewrite index_ok by slice_bounds); cbn [obind].
  discriminate.
Qed.

Lemma Parse_total_from_27_witness :
  Nat.le 27 (len (of_list [0xA5; 0x16; 0x00; 0x10; 0x45; 0x01; 0x02; 0x12; 0x34;
                       0x56; 0x78; 0x02; 0x01; 0x10; 0x00; 0x00; 0x00; 0x20;
                       0x00; 0x00; 0x00; 0x30; 0x00; 0x00; 0x00; 0x01; 0x03])) /\
  Parse (of_list [0xA5; 0x16; 0x00; 0x10; 0x45; 0x01; 0x02; 0x12; 0x34;
                  0x56; 0x78; 0x02; 0x01; 0x10; 0x00; 0x00; 0x00; 0x20;
                  0x00; 0x00; 0x00; 0x30; 0x00; 0x00; 0x00; 0x01; 0x03]) <> Panic.
Proof.
  assert (H : Nat.le 27 (len (of_list [0xA5; 0x16; 0x00; 0x10; 0x45; 0x01; 0x02; 0x12;
                  0x34; 0x56; 0x78; 0x02; 0x01; 0x10; 0x00; 0x00; 0x00; 0x20;
                  0x00; 0x00; 0x00; 0x30; 0x00; 0x00; 0x00; 0x01; 0x03])))
    by (vm_compute; lia).
  split; [exact H | exact (Parse_total_from_27 _ H)].
Defined.

(** X10: [Close] emits one close and leaves [mb.conn] set, so a later
    [Send] does not dial again: its first action is a write on the closed
    connection. *)
Theorem Close_keeps_connection (close_err : option goerr)
    (st : solarmanTransporter) (c : nat) :
  conn st = Some c ->
  let '(_, st1, t) := Close close_err st in
  t = [EvClose] /\ conn st1 = Some c /\
  forall net req, exists r rest, snd (Send net req st1) = EvWrite req r :: rest.
Proof.
  intros Hc. unfold Close. rewrite Hc.
  split; [reflexivity|]. split; [exact Hc|].
  intros net req.
  unfold Send. rewrite io_bind_trace.
  unfold connect at 1 2 3. rewrite Hc. cbn [fst snd app].
  unfold send_write. rewrite !io_bind_trace.
  unfold write at 1 2 3.
  destruct (write_result net (writes st)) as [n err]. cbn [fst snd app].
  do 2 eexists. reflexivity.
Qed.

Lemma Close_keeps_connection_witness :
  conn (mkTransporter (Some 0%nat) 1 0 0) = Some 0%nat /\
  let '(_, st1, t) := Close (Some EPIPE) (mkTransporter (Some 0%nat) 1 0 0) in
  t = [EvClose] /\ conn st1 = Some 0%nat /\
  forall net req, exists r rest, snd (Send net req st1) = EvWrite req r :: rest.
Proof.
  split; [reflexivity|].
  exact (Close_keeps_connection (Some EPIPE) (mkTransporter (Some 0%nat) 1 0 0) 0
           eq_refl).
Defined.

(** X11: [Send] never returns more than 1024 bytes. *)
Theorem Send_response_at_most_1024 (net : network) (req : list Z)
    (st : solarmanTransporter) resp err st' tr :
  Send net req st = ((resp, err), st', tr) -> (length resp <= 1024)%nat.
Proof.
  intros H.
  unfold Send, send_write, send_read, write, read, io_bind, io_ret,
    errors_is_EPIPE in H.
  send_walk H; apply (f_equal (fun x => fst (fst (fst x)))) in H;
    cbn [fst] in H; subst resp; rewrite ?length_firstn; cbn [length]; lia.
Qed.

Lemma Send_response_at_most_1024_witness :
  Send (mkNetwork (fun _ => None) (fun _ => (3, None))
          (fun _ => ([7; 8], Some (ESys 104))))
       [1; 2; 3] (mkTransporter None 0 0 0)
  = (([7; 8], Some (ESys 104)), mkTransporter (Some 0%nat) 1 1 1,
     [EvDial None; EvWrite [1; 2; 3] None; EvRead (Some (ESys 104))]) /\
  (length [7; 8] <= 1024)%nat.
Proof.
  assert (H : Send (mkNetwork (fun _ => None) (fun _ => (3, None))
                      (fun _ => ([7; 8], Some (ESys 104))))
                   [1; 2; 3] (mkTransporter None 0 0 0)
              = (([7; 8], Some (ESys 104)), mkTransporter (Some 0%nat) 1 1 1,
                 [EvDial None; EvWrite [1; 2; 3] None; EvRead (Some (ESys 104))]))
    by reflexivity.
  split; [exact H | exact (Send_response_at_most_1024 _ _ _ _ _ _ _ H)].
Defined.

(** X12: when [Send] returns bytes together with an error, the error is
    the one of the last read and is not [EPIPE]. *)
Theorem Send_partial_response_error (net : network) (req : list Z)
    (st : solarmanTransporter) resp e st' tr :
  Send net req st = ((resp, Some e), st', tr) -> resp <> [] ->
  is_epipe e = false /\ exists pre, tr = pre ++ [EvRead (Some e)].
Proof.
  intros H Hr.
  unfold Send, send_write, send_read, write, read, io_bind, io_ret,
    errors_is_EPIPE in H.
  send_walk H;
    pose proof (f_equal (fun x => fst (fst (fst x))) H) as Hresp;
    pose proof (f_equal (fun x => snd (fst (fst x))) H) as He;
    pose proof (f_equal snd H) as Htr; cbn [fst snd] in Hresp, He, Htr;
    subst resp tr; try congruence;
    injection He as <-; (split; [assumption|]);
    rewrite ?app_nil_r; ends_with_tac.
Qed.

Lemma Send_partial_response_error_witness :
  Send (mkNetwork (fun _ => None) (fun _ => (3, None))
          (fun _ => ([7; 8], Some (ESys 104))))
       [1; 2; 3] (mkTransporter None 0 0 0)
  = (([7; 8], Some (ESys 104)), mkTransporter (Some 0%nat) 1 1 1,
     [EvDial None; EvWrite [1; 2; 3] None; EvRead (Some (ESys 104))]) /\
  [7; 8] <> [] /\
  is_epipe (ESys 104) = false /\
  exists pre, [EvDial None; EvWrite [1; 2; 3] None; EvRead (Some (ESys 104))]
              = pre ++ [EvRead (Some (ESys 104))].
Proof.
  assert (H : Send (mkNetwork (fun _ => None) (fun _ => (3, None))
                      (fun _ => ([7; 8], Some (ESys 104))))
                   [1; 2; 3] (mkTransporter None 0 0 0)
              = (([7; 8], Some (ESys 104)), mkTransporter (Some 0%nat) 1 1 1,
                 [EvDial None; EvWrite [1; 2; 3] None; EvRead (Some (ESys 104))]))
    by reflexivity.
  assert (Hr : [7; 8] <> []) by discriminate.
  split; [exact H | split; [exact Hr | exact (Send_partial_response_error _ _ _ _ _ _ _ H Hr)]].
Defined.

(** X13: with a connection already open, a full write and a read without
    error, [Send] writes once, reads once and returns the first 1024 bytes
    read with no error. *)
Theorem Send_success_path (net : network) (req : list Z)
    (st : solarmanTransporter) (c : nat) (n : Z) (b : list Z) :
  conn st = Some c ->
  write_result net (writes st) = (n, None) ->
  Z.of_nat (length req) <= n ->
  read_result net (reads st) = (b, None) ->
  Send net req st
  = ((firstn 1024 b, None),
     mkTransporter (Some c) (dials st) (S (writes st)) (S (reads st)),
     [EvWrite req None; EvRead None]).
Proof.
  intros Hc Hw Hn Hrd. destruct st as [c0 d w k]. cbn in Hc, Hw, Hrd |- *. subst c0.
  unfold Send, send_write, send_read, connect, write, read, io_bind, io_ret,
    errors_is_EPIPE.
  cbn - [Z.ltb]. rewrite Hw. cbn - [Z.ltb].
  replace (n <? Z.of_nat (length req)) with false by (symmetry; apply Z.ltb_ge; lia).
  cbn. rewrite Hrd. reflexivity.
Qed.

Lemma Send_success_path_witness :
  conn (mkTransporter (Some 0%nat) 1 0 0) = Some 0%nat /\
  Send (mkNetwork (fun _ => None) (fun _ => (3, None)) (fun _ => ([7; 8], None)))
       [1; 2; 3] (mkTransporter (Some 0%nat) 1 0 0)
  = ((firstn 1024 [7; 8], None), mkTransporter (Some 0%nat) 1 1 1,
     [EvWrite [1; 2; 3] None; EvRead None]).
Proof.
  split; [reflexivity|].
  apply (Send_success_path
           (mkNetwork (fun _ => None) (fun _ => (3, None)) (fun _ => ([7; 8], None)))
           [1; 2; 3] (mkTransporter (Some 0%nat) 1 0 0) 0 3 [7; 8]);
    [reflexivity | reflexivity | cbn; lia | reflexivity].
Defined.
